(** * novrin/web: middleware combinators and the declarative responder

    A shallow embedding of the Go packages [middleware] and [messages].
    Handlers are state-passing functions over an output sink (the
    [http.ResponseWriter] they are served with) and a world that holds the
    clock and the log records written so far; a panic is an outcome of a
    handler, carried next to the state it left behind. *)

From Stdlib Require Import ZArith List String Ascii Bool Lia DecimalString.
Import ListNotations.

Open Scope string_scope.
Open Scope list_scope.
Open Scope Z_scope.

(* ------------------------------------------------------------------ *)
(** ** Strings, errors and panic values *)

(** The line feed, and a string followed by one (what [fmt.Fprintln]
    prints for one string operand). *)
Definition LF : ascii := ascii_of_nat 10.

Definition line (s : string) : string := (s ++ String LF EmptyString)%string.

(** [len(s)] as a Go [int]. *)
Definition len (s : string) : Z := Z.of_nat (String.length s).

(** [strings.Contains]. *)
Fixpoint strings_Contains (s substr : string) : bool :=
  if String.prefix substr s then true
  else match s with
       | EmptyString => false
       | String _ s' => strings_Contains s' substr
       end.

(** [strings.Split(s, sep)] for a separator of one byte: the pieces of [s]
    between the occurrences of [sep]; the empty string gives one empty
    piece. *)
Fixpoint strings_Split (s : string) (sep : ascii) : list string :=
  match s with
  | EmptyString => [EmptyString]
  | String c s' =>
      if Ascii.eqb c sep then EmptyString :: strings_Split s' sep
      else match strings_Split s' sep with
           | [] => [String c EmptyString]
           | piece :: pieces => String c piece :: pieces
           end
  end.

(** [strconv.Itoa], for the one message that prints a status code. *)
Definition strconv_Itoa (n : Z) : string := NilZero.string_of_int (Z.to_int n).

(** A Go [error]: a value with an [Error()] string. *)
Record error : Type := errors_New { Error : string }.

(** What a panic carries ([any]).  From Go 1.21, the version the
    repository builds with, [panic(nil)] carries a [*runtime.PanicNilError],
    so the value [recover()] hands back after a panic is never nil. *)
Inductive any : Type :=
| any_string (s : string)
| any_error (e : error).

(** [fmt.Sprintf("%v", rec)]. *)
Definition fmt_Sprint (rec : any) : string :=
  match rec with
  | any_string s => s
  | any_error e => Error e
  end.

(* ------------------------------------------------------------------ *)
(** ** net/http headers

    An [http.Header] is a map from canonical keys to the ordered values
    sent under that key.  It is kept as an association list: built through
    [Header_Add], [Header_Set] and [Header_Del] it holds one entry per key,
    and read with [range] the order of the list stands for the order the
    runtime picks. *)

Definition http_Header : Type := list (string * list string).

Definition is_lower (c : ascii) : bool :=
  let n := nat_of_ascii c in (97 <=? n)%nat && (n <=? 122)%nat.

Definition is_upper (c : ascii) : bool :=
  let n := nat_of_ascii c in (65 <=? n)%nat && (n <=? 90)%nat.

Definition is_digit (c : ascii) : bool :=
  let n := nat_of_ascii c in (48 <=? n)%nat && (n <=? 57)%nat.

(** [textproto.validHeaderFieldByte]: the token characters of RFC 7230. *)
Definition validHeaderFieldByte (c : ascii) : bool :=
  is_lower c || is_upper c || is_digit c
  || existsb (Ascii.eqb c) (list_ascii_of_string "!#$%&'*+-.^_`|~").

Definition to_upper (c : ascii) : ascii :=
  if is_lower c then ascii_of_nat (nat_of_ascii c - 32) else c.

Definition to_lower (c : ascii) : ascii :=
  if is_upper c then ascii_of_nat (nat_of_ascii c + 32) else c.

(** The rewriting pass of [textproto.canonicalMIMEHeaderKey]: upper case
    for the first letter and for a letter after a dash, lower case for the
    others. *)
Fixpoint canonical_from (upper : bool) (s : string) : string :=
  match s with
  | EmptyString => EmptyString
  | String c s' =>
      let c' := if upper then to_upper c else to_lower c in
      String c' (canonical_from (Ascii.eqb c' "-"%char) s')
  end.

(** [textproto.CanonicalMIMEHeaderKey]: a key with a byte that is no token
    character is returned as it is. *)
Definition CanonicalMIMEHeaderKey (s : string) : string :=
  if forallb validHeaderFieldByte (list_ascii_of_string s)
  then canonical_from true s
  else s.

(** [h[key]]. *)
Fixpoint header_lookup (h : http_Header) (key : string) : list string :=
  match h with
  | [] => []
  | (k, vs) :: h' => if String.eqb k key then vs else header_lookup h' key
  end.

(** Whether [key] is present ([_, ok := h[key]]). *)
Fixpoint header_has (h : http_Header) (key : string) : bool :=
  match h with
  | [] => false
  | (k, _) :: h' => String.eqb k key || header_has h' key
  end.

(** [delete(h, key)]. *)
Fixpoint header_delete (h : http_Header) (key : string) : http_Header :=
  match h with
  | [] => []
  | (k, vs) :: h' =>
      if String.eqb k key then header_delete h' key
      else (k, vs) :: header_delete h' key
  end.

(** [h[key] = vs]. *)
Fixpoint header_store (h : http_Header) (key : string) (vs : list string)
  : http_Header :=
  match h with
  | [] => [(key, vs)]
  | (k, old) :: h' =>
      if String.eqb k key then (k, vs) :: header_delete h' key
      else (k, old) :: header_store h' key vs
  end.

Definition Header_Add (h : http_Header) (key value : string) : http_Header :=
  let k := CanonicalMIMEHeaderKey key in
  header_store h k (header_lookup h k ++ [value]).

Definition Header_Set (h : http_Header) (key value : string) : http_Header :=
  header_store h (CanonicalMIMEHeaderKey key) [value].

Definition Header_Del (h : http_Header) (key : string) : http_Header :=
  header_delete h (CanonicalMIMEHeaderKey key).

Definition Header_Values (h : http_Header) (key : string) : list string :=
  header_lookup h (CanonicalMIMEHeaderKey key).

Definition Header_Get (h : http_Header) (key : string) : string :=
  match Header_Values h key with
  | [] => EmptyString
  | v :: _ => v
  end.

(** A change made through the map that [w.Header()] returns. *)
Inductive HeaderOp : Type :=
| HAdd (key value : string)
| HSet (key value : string)
| HDel (key : string).

Definition header_apply (op : HeaderOp) (h : http_Header) : http_Header :=
  match op with
  | HAdd k v => Header_Add h k v
  | HSet k v => Header_Set h k v
  | HDel k => Header_Del h k
  end.

Definition StatusOK : Z := 200.
Definition StatusNoContent : Z := 204.
Definition StatusBadRequest : Z := 400.
Definition StatusInternalServerError : Z := 500.

(** [http.StatusText], on the codes this repository names. *)
Definition http_StatusText (code : Z) : string :=
  if code =? StatusOK then "OK"
  else if code =? StatusNoContent then "No Content"
  else if code =? StatusBadRequest then "Bad Request"
  else if code =? StatusInternalServerError then "Internal Server Error"
  else "".

(* ------------------------------------------------------------------ *)
(** ** log/slog

    A logger is the process-wide default or one made with [slog.New]; a
    [*slog.Logger] that may be nil is an [option].  Every record keeps the
    logger it was handed to, so that the records of all loggers form one
    ordered list. *)

Inductive slog_Logger : Type :=
| slog_Default
| slog_New (handler : nat).

Inductive slog_Level : Type := LevelInfo | LevelError.

Inductive slog_Value : Type :=
| StringValue (s : string)
| IntValue (n : Z)
| DurationValue (d : Z)
| AnyValue (lines : list string).

Definition slog_Attr : Type := (string * slog_Value)%type.

Definition slog_String (key value : string) : slog_Attr := (key, StringValue value).
Definition slog_Int (key : string) (value : Z) : slog_Attr := (key, IntValue value).
Definition slog_Duration (key : string) (d : Z) : slog_Attr := (key, DurationValue d).
Definition slog_Any (key : string) (lines : list string) : slog_Attr := (key, AnyValue lines).

Record slog_Record : Type := {
  to : slog_Logger;
  level : slog_Level;
  msg : string;
  attrs : list slog_Attr
}.

(** [if logger == nil { logger = slog.Default() }]. *)
Definition or_Default (logger : option slog_Logger) : slog_Logger :=
  match logger with
  | None => slog_Default
  | Some l => l
  end.

(* ------------------------------------------------------------------ *)
(** ** The world of a request and the outcome of a call *)

(** What a handler reaches besides its sink: the clock ([time.Now], in
    nanoseconds), the records logged so far, oldest first, and the stack
    dump [debug.Stack] gives in the running goroutine. *)
Record World : Type := {
  now : Z;
  records : list slog_Record;
  stack : string
}.

Definition log (rec : slog_Record) (world : World) : World :=
  {| now := now world; records := records world ++ [rec]; stack := stack world |}.

(** A call returns a value or panics. *)
Inductive Outcome (A : Type) : Type :=
| Returned (a : A)
| Panicked (rec : any).

Arguments Returned {A} a.
Arguments Panicked {A} rec.

(** A computation served with a sink of type [W]: it leaves the sink and
    the world changed also when it panics. *)
Definition io (W A : Type) : Type := W * World -> Outcome A * (W * World).

Definition ret {W A : Type} (a : A) : io W A := fun st => (Returned a, st).

Definition bind {W A B : Type} (m : io W A) (k : A -> io W B) : io W B :=
  fun st =>
    match m st with
    | (Returned a, st') => k a st'
    | (Panicked rec, st') => (Panicked rec, st')
    end.

Declare Scope io_scope.
Delimit Scope io_scope with io.
Notation "x <- m ;; k" := (bind m (fun x => k))
  (at level 61, m at next level, right associativity) : io_scope.
Notation "m ;; k" := (bind m (fun _ => k))
  (at level 61, right associativity) : io_scope.

(** [logger.Info] and [logger.Error]. *)
Definition Logger_Info {W : Type} (logger : slog_Logger) (message : string)
  (args : list slog_Attr) : io W unit :=
  fun st =>
    (Returned tt,
     (fst st, log {| to := logger; level := LevelInfo; msg := message; attrs := args |} (snd st))).

Definition Logger_Error {W : Type} (logger : slog_Logger) (message : string)
  (args : list slog_Attr) : io W unit :=
  fun st =>
    (Returned tt,
     (fst st, log {| to := logger; level := LevelError; msg := message; attrs := args |} (snd st))).

(** [time.Now()] and [time.Since(start)]. *)
Definition time_Now {W : Type} : io W Z := fun st => (Returned (now (snd st)), st).

Definition time_Since {W : Type} (start : Z) : io W Z :=
  fun st => (Returned (now (snd st) - start), st).

(** [debug.Stack()]. *)
Definition debug_Stack {W : Type} : io W string :=
  fun st => (Returned (stack (snd st)), st).

(* ------------------------------------------------------------------ *)
(** ** http.ResponseWriter, http.Request and http.Handler *)

(** The three methods of [http.ResponseWriter] over a sink state [W].
    [Header] reads the header map and [Header_do] changes it through the
    reference [w.Header()] returns; [Write] answers with the count of
    bytes taken and an error; [WriteHeader] returns nothing and may panic
    (net/http's [checkWriteHeaderCode]). *)
Class ResponseWriter (W : Type) : Type := {
  Header : W -> http_Header;
  Header_do : HeaderOp -> W -> W;
  Write : string -> W -> W * (Z * option error);
  WriteHeader : Z -> W -> W * option any
}.

(** The contract of a transport: [WriteHeader] takes every three-digit
    code, and [Write] reports a count within the bytes it was given
    (io.Writer: [0 <= n <= len(p)]). *)
Class Transport (W : Type) {RW : ResponseWriter W} : Prop := {
  WriteHeader_takes : forall code w,
    100 <= code <= 999 -> snd (WriteHeader code w) = None;
  Write_count : forall p w,
    0 <= fst (snd (Write p w)) <= len p
}.

(** The method calls as computations. *)
Definition w_Header_do {W} {RW : ResponseWriter W} (op : HeaderOp) : io W unit :=
  fun st => (Returned tt, (Header_do op (fst st), snd st)).

Definition w_Write {W} {RW : ResponseWriter W} (p : string)
  : io W (Z * option error) :=
  fun st => let (w, res) := Write p (fst st) in (Returned res, (w, snd st)).

Definition w_WriteHeader {W} {RW : ResponseWriter W} (code : Z) : io W unit :=
  fun st =>
    match WriteHeader code (fst st) with
    | (w, None) => (Returned tt, (w, snd st))
    | (w, Some rec) => (Panicked rec, (w, snd st))
    end.

(** The fields of [url.URL] and [http.Request] the packages read. *)
Record url_URL : Type := {
  Path : string;
  RawQuery : string
}.

(** [u.RequestURI()] for the URL of a server request whose path needs no
    escaping: the path, or a slash for an empty one, then the query. *)
Definition RequestURI (u : url_URL) : string :=
  ((if String.eqb (Path u) "" then "/" else Path u)
   ++ (if String.eqb (RawQuery u) "" then "" else "?" ++ RawQuery u))%string.

Record Request : Type := {
  Method : string;
  URL : url_URL;
  Proto : string;
  RemoteAddr : string;
  ReqHeader : http_Header
}.

(** An [http.Handler]: [ServeHTTP(w, r)] for a sink of any type. *)
Definition Handler : Type :=
  forall (W : Type), ResponseWriter W -> Request -> io W unit.

(** [fmt.Fprintln(w, s)], its result dropped. *)
Definition fmt_Fprintln {W} {RW : ResponseWriter W} (s : string) : io W unit :=
  (_ <- w_Write (line s) ;; ret tt)%io.

(** [http.Error(w, error, code)]. *)
Definition http_Error {W} {RW : ResponseWriter W} (err : string) (code : Z)
  : io W unit :=
  (w_Header_do (HDel "Content-Length") ;;
   w_Header_do (HSet "Content-Type" "text/plain; charset=utf-8") ;;
   w_Header_do (HSet "X-Content-Type-Options" "nosniff") ;;
   w_WriteHeader code ;;
   fmt_Fprintln err)%io.

(* ------------------------------------------------------------------ *)
(** ** Sinks *)

(** *** httptest.ResponseRecorder, the sink of the repository's tests *)

Record ResponseRecorder : Type := {
  Code : Z;
  HeaderMap : http_Header;
  Body : string;
  wroteHeader : bool;
  snapHeader : option http_Header
}.

Definition NewRecorder : ResponseRecorder :=
  {| Code := 200; HeaderMap := []; Body := ""; wroteHeader := false;
     snapHeader := None |}.

Section Recorder.

(** [http.DetectContentType], the sniffer behind the recorder's implicit
    Content-Type; the packages never call it themselves. *)
Variable DetectContentType : string -> string.

Definition Recorder_Header_do (op : HeaderOp) (rw : ResponseRecorder)
  : ResponseRecorder :=
  {| Code := Code rw; HeaderMap := header_apply op (HeaderMap rw);
     Body := Body rw; wroteHeader := wroteHeader rw;
     snapHeader := snapHeader rw |}.

(** [rw.WriteHeader(code)]: only the first call counts, and a code outside
    100..999 panics. *)
Definition Recorder_WriteHeader (code : Z) (rw : ResponseRecorder)
  : ResponseRecorder * option any :=
  if wroteHeader rw then (rw, None)
  else if (code <? 100) || (code >? 999)
  then (rw, Some (any_string ("invalid WriteHeader code " ++ strconv_Itoa code)))
  else ({| Code := code; HeaderMap := HeaderMap rw; Body := Body rw;
           wroteHeader := true; snapHeader := Some (HeaderMap rw) |}, None).

(** [rw.writeHeader(b, "")]: before the first body bytes, sniff a
    Content-Type when none is set and commit the implicit 200. *)
Definition Recorder_writeHeader (b : string) (rw : ResponseRecorder)
  : ResponseRecorder :=
  if wroteHeader rw then rw
  else
    let m := HeaderMap rw in
    let hasType := header_has m "Content-Type" in
    let hasTE := negb (String.eqb (Header_Get m "Transfer-Encoding") "") in
    let rw1 :=
      if negb hasType && negb hasTE
      then Recorder_Header_do (HSet "Content-Type" (DetectContentType b)) rw
      else rw in
    fst (Recorder_WriteHeader 200 rw1).

Definition Recorder_Write (buf : string) (rw : ResponseRecorder)
  : ResponseRecorder * (Z * option error) :=
  let rw1 := Recorder_writeHeader buf rw in
  ({| Code := Code rw1; HeaderMap := HeaderMap rw1;
      Body := (Body rw1 ++ buf)%string; wroteHeader := wroteHeader rw1;
      snapHeader := snapHeader rw1 |},
   (len buf, None)).

#[local] Instance Recorder_ResponseWriter : ResponseWriter ResponseRecorder := {
  Header := HeaderMap;
  Header_do := Recorder_Header_do;
  Write := Recorder_Write;
  WriteHeader := Recorder_WriteHeader
}.

End Recorder.

(** *** errorResponseWriter (messages_test.go): a sink whose Write fails *)

Record errorResponseWriter (W : Type) : Type := {
  erw_ResponseWriter : W
}.

Arguments erw_ResponseWriter {W} _.

Definition errorResponseWriter_Write {W : Type} (p : string)
  (rw : errorResponseWriter W) : errorResponseWriter W * (Z * option error) :=
  (rw, (0, Some (errors_New "write failure"))).

#[export] Instance errorResponseWriter_ResponseWriter {W} {RW : ResponseWriter W}
  : ResponseWriter (errorResponseWriter W) := {
  Header := fun rw => Header (erw_ResponseWriter rw);
  Header_do := fun op rw =>
    {| erw_ResponseWriter := Header_do op (erw_ResponseWriter rw) |};
  Write := errorResponseWriter_Write;
  WriteHeader := fun code rw =>
    let (w, p) := WriteHeader code (erw_ResponseWriter rw) in
    ({| erw_ResponseWriter := w |}, p)
}.

(** *** A sink that keeps the calls made on it

    [Spy W] hands every call to the sink below it and notes the call, so
    that what a handler did to its sink can be read as a sequence. *)

Inductive Call : Type :=
| CallHeader (op : HeaderOp)
| CallWriteHeader (code : Z)
| CallWrite (p : string).

Record Spy (W : Type) : Type := {
  below : W;
  calls : list Call
}.

Arguments below {W} _.
Arguments calls {W} _.

#[export] Instance Spy_ResponseWriter {W} {RW : ResponseWriter W}
  : ResponseWriter (Spy W) := {
  Header := fun s => Header (below s);
  Header_do := fun op s =>
    {| below := Header_do op (below s); calls := calls s ++ [CallHeader op] |};
  Write := fun p s =>
    let (w, res) := Write p (below s) in
    ({| below := w; calls := calls s ++ [CallWrite p] |}, res);
  WriteHeader := fun code s =>
    let (w, rec) := WriteHeader code (below s) in
    ({| below := w; calls := calls s ++ [CallWriteHeader code] |}, rec)
}.

(** The status codes a sequence of calls commits, and the byte strings it
    writes, in order. *)
Fixpoint commits (cs : list Call) : list Z :=
  match cs with
  | [] => []
  | CallWriteHeader code :: cs' => code :: commits cs'
  | _ :: cs' => commits cs'
  end.

Fixpoint written (cs : list Call) : list string :=
  match cs with
  | [] => []
  | CallWrite p :: cs' => p :: written cs'
  | _ :: cs' => written cs'
  end.

Fixpoint header_ops (cs : list Call) : list HeaderOp :=
  match cs with
  | [] => []
  | CallHeader op :: cs' => op :: header_ops cs'
  | _ :: cs' => header_ops cs'
  end.

(** Serving a request: the handler's outcome, the sink and the world it
    leaves. *)
Definition serve (h : Handler) {W} {RW : ResponseWriter W} (r : Request)
  (w : W) (world : World) : Outcome unit * (W * World) :=
  h W RW r (w, world).

(** The same under a [Spy]: the outcome, the calls made on the sink and
    the records logged, those of [world] first. *)
Definition observe (h : Handler) {W} {RW : ResponseWriter W} (r : Request)
  (w : W) (world : World) : Outcome unit * list Call * list slog_Record :=
  let '(out, (s, world')) := serve h r {| below := w; calls := [] |} world in
  (out, calls s, records world').

(** *** bytes.Buffer *)

Definition bytes_Buffer : Type := string.

(** [b.Write(p)]: the buffer grows, the write never fails. *)
Definition Buffer_Write (p : string) (b : bytes_Buffer)
  : bytes_Buffer * (Z * option error) :=
  ((b ++ p)%string, (len p, None)).

Definition io_ErrShortWrite : error := errors_New "short write".

(** [b.WriteTo(w)] on the sink state: one [Write] of the whole content
    when there is any; a count above the content panics, an error of the
    sink is returned, and a count below the content is a short write. *)
Definition WriteTo_sink {W} {RW : ResponseWriter W} (b : bytes_Buffer) (w : W)
  : W * Outcome (Z * option error) :=
  if 0 <? len b then
    let '(w', (m, e)) := Write b w in
    if len b <? m
    then (w', Panicked (any_string "bytes.Buffer.WriteTo: invalid Write count"))
    else match e with
         | Some err => (w', Returned (m, Some err))
         | None =>
             if negb (m =? len b)
             then (w', Returned (m, Some io_ErrShortWrite))
             else (w', Returned (m, None))
         end
  else (w, Returned (0, None)).

Definition Buffer_WriteTo {W} {RW : ResponseWriter W} (b : bytes_Buffer)
  : io W (Z * option error) :=
  fun st => let (w, out) := WriteTo_sink b (fst st) in (out, (w, snd st)).

(* ------------------------------------------------------------------ *)
(** ** Package middleware *)

Module middleware.

(** [for i := range ms { h = step i h }] over [n] indices from [i]. *)
Fixpoint for_range {A : Type} (n i : nat) (step : nat -> A -> A) (h : A) : A :=
  match n with
  | O => h
  | S n' => for_range n' (S i) step (step i h)
  end.

(** [ms[i]]; the loops below never leave the slice. *)
Definition index (ms : list (Handler -> Handler)) (i : nat) : Handler -> Handler :=
  nth i ms (fun h => h).

(** [Queue(ms...)]: [h = ms[i](h)] for [i] from the first index on. *)
Definition Queue (ms : list (Handler -> Handler)) : Handler -> Handler :=
  fun h => for_range (List.length ms) 0 (fun i h => index ms i h) h.

(** [Stack(ms...)]: [h = ms[len(ms)-1-i](h)] for [i] from the first index
    on. *)
Definition Stack (ms : list (Handler -> Handler)) : Handler -> Handler :=
  fun h => for_range (List.length ms) 0 (fun i h => index ms (List.length ms - 1 - i)%nat h) h.

(** [captureWriter]: the sink it embeds and the status it captured. *)
Record captureWriter (W : Type) : Type := {
  cw_ResponseWriter : W;
  status : Z
}.

Arguments cw_ResponseWriter {W} _.
Arguments status {W} _.

(** [captureWriter.WriteHeader]: zero stands for 200; the code is
    recorded, then handed to the embedded sink. *)
Definition captureWriter_WriteHeader {W} {RW : ResponseWriter W}
  (statusCode : Z) (rw : captureWriter W) : captureWriter W * option any :=
  let statusCode := if statusCode =? 0 then StatusOK else statusCode in
  let rw := {| cw_ResponseWriter := cw_ResponseWriter rw; status := statusCode |} in
  let (w, rec) := WriteHeader statusCode (cw_ResponseWriter rw) in
  ({| cw_ResponseWriter := w; status := status rw |}, rec).

(** [Header] and [Write] are the embedded sink's. *)
#[export] Instance captureWriter_ResponseWriter {W} {RW : ResponseWriter W}
  : ResponseWriter (captureWriter W) := {
  Header := fun rw => Header (cw_ResponseWriter rw);
  Header_do := fun op rw =>
    {| cw_ResponseWriter := Header_do op (cw_ResponseWriter rw);
       status := status rw |};
  Write := fun p rw =>
    let (w, res) := Write p (cw_ResponseWriter rw) in
    ({| cw_ResponseWriter := w; status := status rw |}, res);
  WriteHeader := captureWriter_WriteHeader
}.

(** The arguments of the access record. *)
Definition access_attrs (r : Request) (status : Z) (duration : Z)
  : list slog_Attr :=
  [ slog_String "src" (RemoteAddr r);
    slog_String "method" (Method r);
    slog_String "dest" (RequestURI (URL r));
    slog_String "proto" (Proto r);
    slog_Int "status" status;
    slog_String "user-agent" (Header_Get (ReqHeader r) "User-Agent");
    slog_Duration "duration" duration ].

(** [rw := &captureWriter{ResponseWriter: w}; h.ServeHTTP(rw, r)]: the
    computation [m] runs on a fresh adapter around the sink; the adapter
    it leaves is the result, and the sink it embeds is the sink again.  A
    panic of [m] goes on. *)
Definition with_captureWriter {W : Type} (m : io (captureWriter W) unit)
  : io W (captureWriter W) :=
  fun st =>
    match m ({| cw_ResponseWriter := fst st; status := 0 |}, snd st) with
    | (Returned _, (rw, world)) => (Returned rw, (cw_ResponseWriter rw, world))
    | (Panicked rec, (rw, world)) => (Panicked rec, (cw_ResponseWriter rw, world))
    end.

(** [AccessLogger(logger, prefix)]: the start is taken, [h] is served with
    the adapter, and when it has returned one Info record is logged. *)
Definition AccessLogger (logger : option slog_Logger) (prefix : string)
  : Handler -> Handler :=
  let logger := or_Default logger in
  fun h W RW r =>
    (start <- time_Now ;;
     rw <- with_captureWriter (h (captureWriter W) _ r) ;;
     elapsed <- time_Since start ;;
     Logger_Info logger prefix (access_attrs r (status rw) elapsed))%io.

(** [RecoverAndHandle(fallback, logger)]: the deferred function runs when
    [h] has returned or panicked; after a panic [recover()] gives the
    value, the record is logged and [fallback] serves the same [w] and
    [r]. *)
Definition RecoverAndHandle (fallback : Handler) (logger : option slog_Logger)
  : Handler -> Handler :=
  let logger := or_Default logger in
  fun h W RW r st =>
    match h W RW r st with
    | (Returned _, st') => (Returned tt, st')
    | (Panicked rec, st') =>
        (trace <- debug_Stack ;;
         Logger_Error logger "PANIC caught by middleware.PanicBroker"
           [ slog_String "error" (fmt_Sprint rec);
             slog_Any "stack" (strings_Split trace LF) ] ;;
         fallback W RW r)%io st'
    end.

(** *** The handlers of middleware_test.go *)

(** [handler] of TestQueueAndStack writes "core". *)
Definition core : Handler :=
  fun W RW r => (_ <- w_Write "core" ;; ret tt)%io.

(** [sign(msg)] writes [msg], then serves the handler it wraps. *)
Definition sign (message : string) : Handler -> Handler :=
  fun h W RW r => (_ <- w_Write message ;; h W RW r)%io.

(** [handler] of TestAccessLoggerOutput commits a status. *)
Definition commit (code : Z) : Handler :=
  fun W RW r => w_WriteHeader code.

(** [handler] of TestRecoverAndHandle on a query that is no number, and
    on one that is. *)
Definition reached_panic : Handler :=
  fun W RW r st => (Panicked (any_string "reached panic"), st).

Definition ok : Handler :=
  fun W RW r => (_ <- w_Write "ok" ;; ret tt)%io.

(** [fallback] of TestRecoverAndHandle. *)
Definition fallback : Handler :=
  fun W RW r =>
    (w_WriteHeader StatusInternalServerError ;;
     _ <- w_Write "caught panic" ;; ret tt)%io.

End middleware.

(* ------------------------------------------------------------------ *)
(** ** Package messages *)

Module messages.

(** A body procedure, [func(io.Writer) error]: all it can do with the
    writer it is given is to call [Write], look at the answer and go on,
    until it returns its error or nil. *)
Inductive BodyFunc : Type :=
| body_return (err : option error)
| body_write (p : string) (next : Z -> option error -> BodyFunc).

(** Calling a body procedure on a writer whose [Write] is [write]. *)
Fixpoint call_body {S : Type} (write : string -> S -> S * (Z * option error))
  (body : BodyFunc) (s : S) : S * option error :=
  match body with
  | body_return err => (s, err)
  | body_write p next =>
      let '(s', (n, e)) := write p s in call_body write (next n e) s'
  end.

(** [resp.WriteBody(w)] on the live sink. *)
Definition WriteBody_to_sink {W} {RW : ResponseWriter W} (body : BodyFunc)
  : io W (option error) :=
  fun st => let (w, err) := call_body Write body (fst st) in (Returned err, (w, snd st)).

(** [var buf bytes.Buffer; resp.WriteBody(&buf)]. *)
Definition WriteBody_to_buffer (body : BodyFunc) : bytes_Buffer * option error :=
  call_body Buffer_Write body EmptyString.

Record Response : Type := {
  Status : Z;
  Headers : http_Header;
  WriteBody : option BodyFunc
}.

Definition ResponseHandlerFunc : Type := Request -> Response.

Record Responder : Type := {
  Logger : option slog_Logger;
  Buffer : bool
}.

(** [re.logger()]. *)
Definition logger (re : Responder) : slog_Logger :=
  match Logger re with
  | None => slog_Default
  | Some l => l
  end.

(** [for _, v := range vals { w.Header().Add(k, v) }]. *)
Fixpoint add_values {W} {RW : ResponseWriter W} (k : string) (vals : list string)
  : io W unit :=
  match vals with
  | [] => ret tt
  | v :: vals' => (w_Header_do (HAdd k v) ;; add_values k vals')%io
  end.

(** [for k, vals := range resp.Headers { ... }]. *)
Fixpoint add_headers {W} {RW : ResponseWriter W} (headers : http_Header)
  : io W unit :=
  match headers with
  | [] => ret tt
  | (k, vals) :: headers' => (add_values k vals ;; add_headers headers')%io
  end.

(** [re.HandlerFunc(fn)]. *)
Definition HandlerFunc (re : Responder) (fn : ResponseHandlerFunc) : Handler :=
  fun W RW r =>
    let resp := fn r in
    if (Status resp <? 100) || (Status resp >? 599) then
      (Logger_Error (logger re) "Handler returned a Response with invalid status code"
         [ slog_String "method" (Method r);
           slog_String "path" (Path (URL r)) ] ;;
       http_Error (http_StatusText StatusInternalServerError)
         StatusInternalServerError)%io
    else
      (add_headers (Headers resp) ;;
       match WriteBody resp with
       | None => w_WriteHeader (Status resp)
       | Some body =>
           if negb (Buffer re) then
             w_WriteHeader (Status resp) ;;
             err <- WriteBody_to_sink body ;;
             match err with
             | Some e =>
                 Logger_Error (logger re) "Error streaming response body"
                   [ slog_String "path" (Path (URL r));
                     slog_String "error" (Error e) ]
             | None => ret tt
             end
           else
             let (buf, err) := WriteBody_to_buffer body in
             match err with
             | Some e =>
                 Logger_Error (logger re) "Error buffering response body"
                   [ slog_String "path" (Path (URL r));
                     slog_String "error" (Error e) ] ;;
                 http_Error (http_StatusText StatusInternalServerError)
                   StatusInternalServerError
             | None =>
                 w_WriteHeader (Status resp) ;;
                 res <- Buffer_WriteTo buf ;;
                 match snd res with
                 | Some e =>
                     Logger_Error (logger re) "Error flushing buffered response"
                       [ slog_String "path" (Path (URL r));
                         slog_String "error" (Error e) ]
                 | None => ret tt
                 end
             end
       end)%io.

(** *** The handlers of messages_test.go *)

Definition text_plain : http_Header :=
  [("Content-Type", ["text/plain; charset=utf-8"])].

(** [io.WriteString(w, "hello, world")], its error returned. *)
Definition hello_world : BodyFunc :=
  body_write "hello, world" (fun _ err => body_return err).

Definition simpleResponseHandlerFunc : ResponseHandlerFunc :=
  fun r => {| Status := StatusOK; Headers := text_plain;
              WriteBody := Some hello_world |}.

Definition erroredResponseHandlerFunc : ResponseHandlerFunc :=
  fun r => {| Status := StatusOK; Headers := text_plain;
              WriteBody := Some (body_return (Some (errors_New "fail on purpose"))) |}.

Definition zeroStatusHandlerFunc : ResponseHandlerFunc :=
  fun r => {| Status := 0; Headers := []; WriteBody := None |}.

Definition noContentHandlerFunc : ResponseHandlerFunc :=
  fun r => {| Status := StatusNoContent; Headers := [("X-Custom", ["no body"])];
              WriteBody := None |}.

End messages.

(** [httptest.NewRequest("GET", "/", nil)], a world with nothing logged,
    and a sniffer for the recorder (what net/http detects for plain
    text). *)
Definition GET_root : Request :=
  {| Method := "GET"; URL := {| Path := "/"; RawQuery := "" |};
     Proto := "HTTP/1.1"; RemoteAddr := "192.0.2.1:1234"; ReqHeader := [] |}.

Definition quiet : World := {| now := 0; records := []; stack := "" |}.

Definition sniff_text (b : string) : string := "text/plain; charset=utf-8".

Import middleware messages.

(* ------------------------------------------------------------------ *)
(** ** Vocabulary of the statements *)

(** A wrapper that marks its way in and its way out around the handler it
    wraps. *)
Definition enter (name : string) : string := ("<" ++ name)%string.
Definition leave (name : string) : string := (">" ++ name)%string.

Definition around (name : string) : Handler -> Handler :=
  fun h W RW r =>
    (_ <- w_Write (enter name) ;; h W RW r ;; _ <- w_Write (leave name) ;; ret tt)%io.

(** A handler that has committed a status and sent a part of its body
    when it panics. *)
Definition half_sent : Handler :=
  fun W RW r =>
    (w_WriteHeader StatusOK ;;
     _ <- w_Write "partial" ;;
     fun st => (Panicked (any_string "reached panic"), st))%io.

(** [w1 (w2 (... (wn h)))]: the first wrapper outermost. *)
Definition nest (ms : list (Handler -> Handler)) (h : Handler) : Handler :=
  fold_right (fun m inner => m inner) h ms.

Section SinkStates.

Context {W : Type} {RW : ResponseWriter W}.

(** The sink after [p1], ..., [pn] were written to it. *)
Definition all_written (ps : list string) (w : W) : W :=
  fold_left (fun w p => fst (Write p w)) ps w.

(** The sink after the values of one key, and after all headers of a
    response, were added. *)
Definition values_added (k : string) (vals : list string) (w : W) : W :=
  fold_left (fun w v => Header_do (HAdd k v) w) vals w.

Definition headers_added (headers : http_Header) (w : W) : W :=
  fold_left (fun w kv => values_added (fst kv) (snd kv) w) headers w.

(** The sink once the headers of [resp] are added and its status is
    committed. *)
Definition committed (resp : Response) (w : W) : W :=
  fst (WriteHeader (Status resp) (headers_added (Headers resp) w)).

(** The sink after [http.Error] sent the generic 500 response. *)
Definition error_sent (w : W) : W :=
  fst (Write (line "Internal Server Error")
         (fst (WriteHeader 500
            (Header_do (HSet "X-Content-Type-Options" "nosniff")
               (Header_do (HSet "Content-Type" "text/plain; charset=utf-8")
                  (Header_do (HDel "Content-Length") w)))))).

End SinkStates.

(** The calls that add the headers of a response, and the calls of the
    generic 500 response. *)
Definition header_calls (headers : http_Header) : list Call :=
  flat_map (fun kv => map (fun v => CallHeader (HAdd (fst kv) v)) (snd kv)) headers.

Definition error_calls : list Call :=
  [ CallHeader (HDel "Content-Length");
    CallHeader (HSet "Content-Type" "text/plain; charset=utf-8");
    CallHeader (HSet "X-Content-Type-Options" "nosniff");
    CallWriteHeader 500;
    CallWrite (line "Internal Server Error") ].

(** The byte strings a body procedure hands to a writer, in order. *)
Fixpoint body_writes {S : Type} (write : string -> S -> S * (Z * option error))
  (body : BodyFunc) (s : S) : list string :=
  match body with
  | body_return _ => []
  | body_write p next =>
      let '(s', (n, e)) := write p s in p :: body_writes write (next n e) s'
  end.

(** The execution paths of the handler [HandlerFunc] returns, named as the
    specification lists them: invalid status, nil body, streaming (with
    the error of the body procedure, if any), failed buffering, and
    buffered (with the error of the flush, if any). *)
Inductive ExecPath : Type :=
| InvalidStatus
| NilBody
| Streaming (err : option error)
| BufferingFailed (err : error)
| Buffered (flush : Outcome (Z * option error)).

Definition path_of {W} {RW : ResponseWriter W} (re : Responder) (resp : Response)
  (w : W) : ExecPath :=
  if (Status resp <? 100) || (Status resp >? 599) then InvalidStatus
  else match WriteBody resp with
       | None => NilBody
       | Some body =>
           if Buffer re then
             match WriteBody_to_buffer body with
             | (_, Some e) => BufferingFailed e
             | (buf, None) => Buffered (snd (WriteTo_sink buf (committed resp w)))
             end
           else Streaming (snd (call_body Write body (committed resp w)))
       end.

(** The paths on which something went wrong. *)
Definition is_error_path (p : ExecPath) : bool :=
  match p with
  | InvalidStatus => true
  | NilBody => false
  | Streaming (Some _) => true
  | Streaming None => false
  | BufferingFailed _ => true
  | Buffered (Returned (_, Some _)) => true
  | Buffered _ => false
  end.

(** A recorder with another header map. *)
Definition with_HeaderMap (m : http_Header) (rw : ResponseRecorder)
  : ResponseRecorder :=
  {| Code := Code rw; HeaderMap := m; Body := Body rw;
     wroteHeader := wroteHeader rw; snapHeader := snapHeader rw |}.

(** Status and commit flag of a recorder stay the same. *)
Definition same_status (rw rw' : ResponseRecorder) : Prop :=
  Code rw' = Code rw /\ wroteHeader rw' = wroteHeader rw.

(** The value of the status field among the arguments of a record. *)
Definition status_attr (args : list slog_Attr) : option slog_Value :=
  option_map snd (find (fun kv => String.eqb (fst kv) "status") args).

(** The record [RecoverAndHandle] logs for the panic value [rec] under the
    stack dump [trace]. *)
Definition panic_record (logger : option slog_Logger) (rec : any) (trace : string)
  : slog_Record :=
  {| to := match logger with Some l => l | None => slog_Default end;
     level := LevelError;
     msg := "PANIC caught by middleware.PanicBroker";
     attrs := [ ("error", StringValue (fmt_Sprint rec));
                ("stack", AnyValue (strings_Split trace LF)) ] |}.

(** The record the responder logs for an error [e] of the body. *)
Definition body_error_record (re : Responder) (message : string) (r : Request)
  (e : error) : slog_Record :=
  {| to := logger re; level := LevelError; msg := message;
     attrs := [ ("path", StringValue (Path (URL r)));
                ("error", StringValue (Error e)) ] |}.

(** The byte strings [ps] one after the other. *)
Definition join (ps : list string) : string :=
  fold_right String.append EmptyString ps.

(** [strings.Join(lines, "\n")]. *)
Fixpoint unlines (lines : list string) : string :=
  match lines with
  | [] => EmptyString
  | [l] => l
  | l :: rest => (l ++ String LF (unlines rest))%string
  end.

(** What a body procedure writes, and what it returns, on a writer that
    takes every write whole and without error, as a [bytes.Buffer] and a
    recorder do. *)
Fixpoint accepted (body : BodyFunc) : list string * option error :=
  match body with
  | body_return err => ([], err)
  | body_write p next =>
      let (ps, err) := accepted (next (len p) None) in (p :: ps, err)
  end.

(** A recorder with another body. *)
Definition with_Body (b : string) (rw : ResponseRecorder) : ResponseRecorder :=
  {| Code := Code rw; HeaderMap := HeaderMap rw; Body := b;
     wroteHeader := wroteHeader rw; snapHeader := snapHeader rw |}.

(** The values a header map of a Response holds for the canonical key
    [k], entry after entry. *)
Definition values_for (k : string) (headers : http_Header) : list string :=
  flat_map (fun kv => if String.eqb (CanonicalMIMEHeaderKey (fst kv)) k
                      then snd kv else []) headers.

(** A handler that calls [w.WriteHeader] with each code in turn. *)
Fixpoint commit_each {W} {RW : ResponseWriter W} (codes : list Z) : io W unit :=
  match codes with
  | [] => ret tt
  | code :: codes' => (w_WriteHeader code ;; commit_each codes')%io
  end.

Definition commit_all (codes : list Z) : Handler :=
  fun W RW r => commit_each codes.

(** The record [AccessLogger] logs. *)
Definition access_record (logger : option slog_Logger) (prefix : string)
  (r : Request) (status : Z) (duration : Z) : slog_Record :=
  {| to := match logger with Some l => l | None => slog_Default end;
     level := LevelInfo;
     msg := prefix;
     attrs := [ ("src", StringValue (RemoteAddr r));
                ("method", StringValue (Method r));
                ("dest", StringValue (RequestURI (URL r)));
                ("proto", StringValue (Proto r));
                ("status", IntValue status);
                ("user-agent", StringValue (Header_Get (ReqHeader r) "User-Agent"));
                ("duration", DurationValue duration) ] |}.

(* ------------------------------------------------------------------ *)
(** ** Queue and Stack *)

Section Composition.

Lemma for_range_Queue (pre ms : list (Handler -> Handler)) (h : Handler) :
  for_range (List.length ms) (List.length pre)
    (fun i h => index (pre ++ ms) i h) h
  = fold_left (fun inner m => m inner) ms h.
Proof.
  revert pre h. induction ms as [|m ms IH]; intros pre h; simpl.
  - reflexivity.
  - unfold index at 2. rewrite nth_middle.
    specialize (IH (pre ++ [m]) (m h)).
    rewrite <- app_assoc in IH. simpl in IH.
    rewrite length_app in IH. simpl in IH.
    rewrite Nat.add_1_r in IH. exact IH.
Qed.

Lemma Queue_fold (ms : list (Handler -> Handler)) (h : Handler) :
  Queue ms h = fold_left (fun inner m => m inner) ms h.
Proof. exact (for_range_Queue [] ms h). Qed.

Lemma Queue_nest (ms : list (Handler -> Handler)) (h : Handler) :
  Queue ms h = nest (rev ms) h.
Proof.
  rewrite Queue_fold. unfold nest. rewrite fold_left_rev_right. reflexivity.
Qed.

Lemma firstn_snoc (A : Type) (d : A) (l : list A) (k : nat) :
  (k < List.length l)%nat -> firstn (S k) l = firstn k l ++ [nth k l d].
Proof.
  revert k. induction l as [|a l IH]; intros k Hk; simpl in Hk.
  - lia.
  - destruct k as [|k]; [reflexivity|].
    change (a :: firstn (S k) l = a :: (firstn k l ++ [nth k l d])).
    rewrite IH by lia. reflexivity.
Qed.

Lemma for_range_Stack (ms : list (Handler -> Handler)) (k : nat) (h : Handler) :
  (k <= List.length ms)%nat ->
  for_range k (List.length ms - k)
    (fun i h => index ms (List.length ms - 1 - i) h) h
  = nest (firstn k ms) h.
Proof.
  revert h. induction k as [|k IH]; intros h Hk.
  - reflexivity.
  - simpl for_range.
    replace (S (List.length ms - S k))%nat with (List.length ms - k)%nat by lia.
    replace (List.length ms - 1 - (List.length ms - S k))%nat with k by lia.
    rewrite IH by lia.
    rewrite (firstn_snoc _ (fun h : Handler => h)) by lia.
    unfold nest. rewrite fold_right_app. reflexivity.
Qed.

Lemma Stack_nest (ms : list (Handler -> Handler)) (h : Handler) :
  Stack ms h = nest ms h.
Proof.
  unfold Stack.
  pose proof (for_range_Stack ms (List.length ms) h (Nat.le_refl _)) as H.
  rewrite Nat.sub_diag in H. rewrite H. rewrite firstn_all. reflexivity.
Qed.

End Composition.

(* ------------------------------------------------------------------ *)
(** ** Calls seen by a Spy *)

Section SpyRuns.

Context {W : Type} {RW : ResponseWriter W}.

Lemma spy_eta (s : Spy W) :
  {| below := below s; calls := calls s ++ [] |} = s.
Proof. destruct s as [w cs]. simpl. rewrite app_nil_r. reflexivity. Qed.

Lemma w_Write_spy (p : string) (s : Spy W) (world : World) :
  w_Write p (s, world)
  = (Returned (snd (Write p (below s))),
     ({| below := fst (Write p (below s)); calls := calls s ++ [CallWrite p] |},
      world)).
Proof.
  unfold w_Write. simpl. destruct (Write p (below s)) as [w res]. reflexivity.
Qed.

Lemma sign_nest (labels : list string) (h : Handler) (r : Request) :
  forall (s : Spy W) (world : World),
    nest (map sign labels) h (Spy W) _ r (s, world)
    = h (Spy W) _ r
        ({| below := all_written labels (below s);
            calls := calls s ++ map CallWrite labels |}, world).
Proof.
  induction labels as [|l labels IH]; intros s world; simpl.
  - rewrite spy_eta. reflexivity.
  - unfold sign at 1. unfold bind. rewrite w_Write_spy.
    fold (nest (map sign labels) h). rewrite IH. simpl.
    rewrite <- app_assoc. reflexivity.
Qed.

Lemma around_nest (names : list string) (h : Handler) (r : Request)
  (inner : list Call) :
  (forall (s : Spy W) world, exists w',
      h (Spy W) _ r (s, world)
      = (Returned tt, ({| below := w'; calls := calls s ++ inner |}, world))) ->
  forall (s : Spy W) world, exists w',
    nest (map around names) h (Spy W) _ r (s, world)
    = (Returned tt,
       ({| below := w';
           calls := calls s ++ map CallWrite (map enter names) ++ inner
                    ++ map CallWrite (map leave (rev names)) |}, world)).
Proof.
  intros Hh. induction names as [|n names IH]; intros s world; simpl.
  - destruct (Hh s world) as [w' E]. exists w'. rewrite E.
    rewrite app_nil_r. reflexivity.
  - unfold around at 1. unfold bind. rewrite w_Write_spy.
    fold (nest (map around names) h).
    destruct (IH {| below := fst (Write (enter n) (below s));
                    calls := calls s ++ [CallWrite (enter n)] |} world)
      as [w1 E].
    rewrite E. rewrite w_Write_spy. simpl.
    eexists. unfold ret. f_equal. f_equal. f_equal.
    rewrite !map_app. simpl. rewrite <- !app_assoc. simpl. reflexivity.
Qed.

Lemma core_spy (r : Request) (s : Spy W) (world : World) :
  exists w',
    core (Spy W) _ r (s, world)
    = (Returned tt, ({| below := w'; calls := calls s ++ [CallWrite "core"] |}, world)).
Proof.
  unfold core, bind. rewrite w_Write_spy. eexists. reflexivity.
Qed.

End SpyRuns.

(** C6. For every sequence of wrappers, [Queue] nests them with the last
    one outermost and [Stack] with the first one outermost.  Around a core
    that writes "core", wrappers that each write their label produce the
    labels in reverse order under [Queue] and in the given order under
    [Stack], then "core"; for the labels "m1_" and "m2_" a recorder
    holds "m2_m1_core" and "m1_m2_core". *)
Theorem Queue_Stack_execution_order :
  (forall (ms : list (Handler -> Handler)) (h : Handler),
      Queue ms h = nest (rev ms) h /\ Stack ms h = nest ms h)
  /\ (forall (labels : list string) (W : Type) (RW : ResponseWriter W)
        (r : Request) (w : W) (world : World),
        observe (Queue (map sign labels) core) r w world
        = (Returned tt, map CallWrite (rev labels ++ ["core"]), records world)
        /\ observe (Stack (map sign labels) core) r w world
           = (Returned tt, map CallWrite (labels ++ ["core"]), records world))
  /\ (forall (sniff : string -> string) (r : Request) (world : World),
        Body (fst (snd (serve (Queue [sign "m1_"; sign "m2_"] core)
                          (RW := Recorder_ResponseWriter sniff) r NewRecorder world)))
        = "m2_m1_core"
        /\ Body (fst (snd (serve (Stack [sign "m1_"; sign "m2_"] core)
                             (RW := Recorder_ResponseWriter sniff) r NewRecorder world)))
           = "m1_m2_core").
Proof.
  split; [|split].
  - intros ms h. split; [apply Queue_nest | apply Stack_nest].
  - intros labels W RW r w world. unfold observe, serve. split.
    + rewrite Queue_nest, <- map_rev, sign_nest.
      unfold core, bind. rewrite w_Write_spy. simpl.
      rewrite map_app. reflexivity.
    + rewrite Stack_nest, sign_nest.
      unfold core, bind. rewrite w_Write_spy. simpl.
      rewrite map_app. reflexivity.
  - intros sniff r world. split; reflexivity.
Qed.

(** C7, as the specification words it: the first wrapper given to [Queue]
    is the outermost one, entered first and left last.  It fails for two
    wrappers: the second one is entered first and left last. *)
Lemma Queue_first_wrapper_not_outermost :
  observe (Queue [around "1"; around "2"] core)
    (RW := Recorder_ResponseWriter sniff_text) GET_root NewRecorder quiet
  = (Returned tt, map CallWrite ["<2"; "<1"; "core"; ">1"; ">2"], [])
  /\ ~ (forall (name : string) (names : list string) (W : Type)
          (RW : ResponseWriter W) (r : Request) (w : W) (world : World),
          exists inside,
            observe (Queue (map around (name :: names)) core) r w world
            = (Returned tt,
               [CallWrite (enter name)] ++ inside ++ [CallWrite (leave name)],
               records world)).
Proof.
  split; [reflexivity|].
  intros H.
  destruct (H "1" ["2"] ResponseRecorder (Recorder_ResponseWriter sniff_text)
              GET_root NewRecorder quiet) as [inside E].
  vm_compute in E. discriminate E.
Qed.

(** C7, amended. [Queue] applies the wrappers so that the last one is
    outermost: it is entered first and left last, and the first wrapper is
    the innermost one, entered last and left first, next to the terminal
    handler. *)
Theorem Queue_last_wrapper_outermost :
  (forall (ms : list (Handler -> Handler)) (m : Handler -> Handler) (h : Handler),
      Queue (ms ++ [m]) h = m (Queue ms h)
      /\ Queue (m :: ms) h = Queue ms (m h))
  /\ (forall (names : list string) (W : Type) (RW : ResponseWriter W)
        (r : Request) (w : W) (world : World),
        observe (Queue (map around names) core) r w world
        = (Returned tt,
           map CallWrite (map enter (rev names) ++ ["core"] ++ map leave names),
           records world)).
Proof.
  split.
  - intros ms m h. split.
    + rewrite !Queue_nest. rewrite rev_app_distr. reflexivity.
    + rewrite !Queue_fold. reflexivity.
  - intros names W RW r w world. unfold observe, serve.
    rewrite Queue_nest, <- map_rev.
    destruct (around_nest (rev names) core r [CallWrite "core"]
                (core_spy r) {| below := w; calls := [] |} world) as [w' E].
    rewrite E. simpl. rewrite rev_involutive.
    rewrite !map_app. reflexivity.
Qed.

(* ------------------------------------------------------------------ *)
(** ** The panic barrier *)

Lemma RecoverAndHandle_run (fallback : Handler) (logger : option slog_Logger)
  (h : Handler) (W : Type) (RW : ResponseWriter W) (r : Request) (st : W * World) :
  RecoverAndHandle fallback logger h W RW r st
  = match h W RW r st with
    | (Returned _, st') => (Returned tt, st')
    | (Panicked rec, (w', world')) =>
        fallback W RW r (w', log (panic_record logger rec (stack world')) world')
    end.
Proof.
  unfold RecoverAndHandle.
  destruct (h W RW r st) as [[u|rec] [w' world']]; [reflexivity|].
  unfold bind, debug_Stack, Logger_Error, panic_record, or_Default,
    slog_String, slog_Any. simpl.
  destruct logger; reflexivity.
Qed.

(** C5, as the specification words it: after a panic of the wrapped
    handler the client gets the status and the body of the fallback.  It
    fails when the wrapped handler had committed a status and sent bytes
    before it panicked: the recorder keeps the 200 and the bytes, and the
    fallback's body comes after them. *)
Lemma panic_after_write_keeps_what_was_sent :
  let RW := Recorder_ResponseWriter sniff_text in
  let barrier := serve (RecoverAndHandle fallback None half_sent) GET_root NewRecorder quiet in
  let alone := serve fallback GET_root NewRecorder quiet in
  fst (half_sent ResponseRecorder RW GET_root (NewRecorder, quiet))
  = Panicked (any_string "reached panic")
  /\ Code (fst (snd alone)) = 500
  /\ Body (fst (snd alone)) = "caught panic"
  /\ Code (fst (snd barrier)) = 200
  /\ Body (fst (snd barrier)) = "partialcaught panic"
  /\ (Code (fst (snd barrier)), Body (fst (snd barrier)))
     <> (Code (fst (snd alone)), Body (fst (snd alone))).
Proof.
  repeat split; try reflexivity. vm_compute. discriminate.
Qed.

(** C5, amended. When the wrapped handler panics, the barrier logs
    exactly one Error record, with the panic value as a string and the
    stack dump as its sequence of lines, to the configured logger or to
    the default one when none is configured; the fallback then serves the
    same request on the same sink, in the state the wrapped handler left
    it, so its status and body are the client's when the wrapped handler
    had sent nothing.  When the wrapped handler returns, its outcome, sink
    and world pass through and nothing is logged. *)
Theorem RecoverAndHandle_outcome :
  forall (fallback h : Handler) (logger : option slog_Logger) (W : Type)
    (RW : ResponseWriter W) (r : Request) (w : W) (world : World)
    (out : Outcome unit) (w' : W) (world' : World),
    serve h r w world = (out, (w', world')) ->
    match out with
    | Returned _ =>
        serve (RecoverAndHandle fallback logger h) r w world
        = (Returned tt, (w', world'))
    | Panicked rec =>
        let entry :=
          {| to := match logger with Some l => l | None => slog_Default end;
             level := LevelError;
             msg := "PANIC caught by middleware.PanicBroker";
             attrs := [ ("error", StringValue (fmt_Sprint rec));
                        ("stack", AnyValue (strings_Split (stack world') LF)) ] |} in
        let logged :=
          {| now := now world'; records := records world' ++ [entry];
             stack := stack world' |} in
        serve (RecoverAndHandle fallback logger h) r w world
        = serve fallback r w' logged
        /\ (w' = w ->
            fst (snd (serve (RecoverAndHandle fallback logger h) r w world))
            = fst (snd (serve fallback r w logged)))
    end.
Proof.
  intros fallback h logger W RW r w world out w' world' E.
  unfold serve in *. rewrite RecoverAndHandle_run, E.
  destruct out as [u|rec]; [reflexivity|].
  split; [reflexivity|]. intros ->. reflexivity.
Qed.

Lemma RecoverAndHandle_outcome_witness :
  let RW := Recorder_ResponseWriter sniff_text in
  serve (RecoverAndHandle fallback None reached_panic) GET_root NewRecorder quiet
  = serve fallback GET_root NewRecorder
      {| now := 0;
         records := [ {| to := slog_Default; level := LevelError;
                         msg := "PANIC caught by middleware.PanicBroker";
                         attrs := [ ("error", StringValue "reached panic");
                                    ("stack", AnyValue [""]) ] |} ];
         stack := "" |}.
Proof.
  intro RW.
  exact (proj1 (RecoverAndHandle_outcome fallback reached_panic None
                  ResponseRecorder RW GET_root NewRecorder quiet
                  (Panicked (any_string "reached panic")) NewRecorder quiet
                  eq_refl)).
Defined.

(** TestRecoverAndHandle: with and without a logger the recorder holds the
    fallback's 500 and "caught panic" after a panic, and the handler's
    200 and "ok" without one. *)
Example test_RecoverAndHandle :
  let RW := Recorder_ResponseWriter sniff_text in
  let caught l := serve (RecoverAndHandle fallback l reached_panic) GET_root NewRecorder quiet in
  let passed := serve (RecoverAndHandle fallback None ok) GET_root NewRecorder quiet in
  (Code (fst (snd (caught None))), Body (fst (snd (caught None)))) = (500, "caught panic")
  /\ (Code (fst (snd (caught (Some (slog_New 1))))),
      Body (fst (snd (caught (Some (slog_New 1)))))) = (500, "caught panic")
  /\ List.length (records (snd (snd (caught None)))) = 1%nat
  /\ List.length (records (snd (snd (caught (Some (slog_New 1)))))) = 1%nat
  /\ (Code (fst (snd passed)), Body (fst (snd passed))) = (200, "ok")
  /\ records (snd (snd passed)) = [].
Proof. repeat split; reflexivity. Qed.

(* ------------------------------------------------------------------ *)
(** ** The access logger *)



(** A handler that only writes never calls [WriteHeader] on the adapter:
    the recorder commits the implicit 200 of its first write, and the
    status field of the adapter, which the record reports, is still the
    zero it started with. *)
Example AccessLogger_status_without_WriteHeader :
  let RW := Recorder_ResponseWriter sniff_text in
  let out := serve (AccessLogger None "" ok) GET_root NewRecorder quiet in
  Code (fst (snd out)) = 200
  /\ map (fun rec => status_attr (attrs rec)) (records (snd (snd out)))
     = [Some (IntValue 0)].
Proof. split; reflexivity. Qed.

(** TestCaptureWriter_WriteHeader: 400 and 200 are captured as they are,
    zero as 200, and 9999 is captured before the recorder panics. *)
Example test_captureWriter_WriteHeader :
  let RW := Recorder_ResponseWriter sniff_text in
  let captured code :=
    WriteHeader code {| cw_ResponseWriter := NewRecorder; status := 0 |} in
  (status (fst (captured 400)), snd (captured 400)) = (400, None)
  /\ (status (fst (captured 0)), snd (captured 0)) = (200, None)
  /\ (status (fst (captured 200)), snd (captured 200)) = (200, None)
  /\ (status (fst (captured 9999)), snd (captured 9999))
     = (9999, Some (any_string "invalid WriteHeader code 9999")).
Proof. repeat split; reflexivity. Qed.

(* ------------------------------------------------------------------ *)
(** ** The responder, on any sink *)

Lemma invalid_status_test (code : Z) :
  code < 100 \/ code > 599 -> (code <? 100) || (code >? 599) = true.
Proof.
  intros H. rewrite Z.gtb_ltb. apply orb_true_iff.
  destruct H; [left; apply Z.ltb_lt | right; apply Z.ltb_lt]; lia.
Qed.

Lemma valid_status_test (code : Z) :
  100 <= code <= 599 -> (code <? 100) || (code >? 599) = false.
Proof.
  intros H. rewrite Z.gtb_ltb. apply orb_false_iff.
  split; apply Z.ltb_ge; lia.
Qed.

Section AnySink.

Context {W : Type} {RW : ResponseWriter W}.

Lemma add_values_run (k : string) (vals : list string) :
  forall (w : W) (world : World),
    add_values k vals (w, world) = (Returned tt, (values_added k vals w, world)).
Proof.
  induction vals as [|v vals IH]; intros w world; simpl; [reflexivity|].
  unfold bind, w_Header_do. simpl. apply IH.
Qed.

Lemma add_headers_run (headers : http_Header) :
  forall (w : W) (world : World),
    add_headers headers (w, world) = (Returned tt, (headers_added headers w, world)).
Proof.
  induction headers as [|[k vals] headers IH]; intros w world; simpl; [reflexivity|].
  unfold bind. rewrite add_values_run. apply IH.
Qed.

Lemma WriteBody_to_sink_run (body : BodyFunc) (w : W) (world : World) :
  WriteBody_to_sink body (w, world)
  = (Returned (snd (call_body Write body w)), (fst (call_body Write body w), world)).
Proof.
  unfold WriteBody_to_sink. simpl. destruct (call_body Write body w). reflexivity.
Qed.

Context {T : Transport W}.

Lemma w_WriteHeader_run (code : Z) (w : W) (world : World) :
  100 <= code <= 999 ->
  w_WriteHeader code (w, world) = (Returned tt, (fst (WriteHeader code w), world)).
Proof.
  intros H. unfold w_WriteHeader. simpl.
  pose proof (WriteHeader_takes code w H) as E.
  destruct (WriteHeader code w) as [w' [rec|]]; simpl in E; [discriminate|reflexivity].
Qed.

Lemma http_Error_run (w : W) (world : World) :
  http_Error (http_StatusText StatusInternalServerError) StatusInternalServerError
    (w, world)
  = (Returned tt, (error_sent w, world)).
Proof.
  unfold http_Error, bind, w_Header_do. simpl fst. simpl snd.
  change StatusInternalServerError with 500.
  rewrite w_WriteHeader_run by lia.
  unfold fmt_Fprintln, bind, w_Write, error_sent. simpl fst. simpl snd.
  change (http_StatusText 500) with "Internal Server Error".
  destruct (Write (line "Internal Server Error") _) as [w' res]. reflexivity.
Qed.

(** The buffer's flush never panics on a transport. *)
Lemma WriteTo_sink_returns (buf : bytes_Buffer) (w : W) :
  exists m e, snd (WriteTo_sink buf w) = Returned (m, e).
Proof.
  unfold WriteTo_sink. destruct (0 <? len buf); [|eexists; eexists; reflexivity].
  pose proof (Write_count buf w) as Hc.
  destruct (Write buf w) as [w' [m e]]. simpl in Hc.
  destruct (Z.ltb_spec (len buf) m) as [Hlt|_]; [lia|].
  destruct e as [err|]; [eexists; eexists; reflexivity|].
  destruct (negb (m =? len buf)); eexists; eexists; reflexivity.
Qed.

Lemma Buffer_WriteTo_run (buf : bytes_Buffer) (w : W) (world : World) :
  Buffer_WriteTo buf (w, world)
  = (snd (WriteTo_sink buf w), (fst (WriteTo_sink buf w), world)).
Proof.
  unfold Buffer_WriteTo. simpl. destruct (WriteTo_sink buf w). reflexivity.
Qed.

Variables (re : Responder) (fn : ResponseHandlerFunc) (r : Request).

Lemma HandlerFunc_invalid (w : W) (world : World) :
  Status (fn r) < 100 \/ Status (fn r) > 599 ->
  serve (HandlerFunc re fn) r w world
  = (Returned tt,
     (error_sent w,
      log {| to := logger re; level := LevelError;
             msg := "Handler returned a Response with invalid status code";
             attrs := [ ("method", StringValue (Method r));
                        ("path", StringValue (Path (URL r))) ] |} world)).
Proof.
  intros H. unfold serve, HandlerFunc.
  rewrite (invalid_status_test _ H).
  unfold bind, Logger_Error. simpl fst. simpl snd.
  rewrite http_Error_run. reflexivity.
Qed.

Lemma HandlerFunc_nil_body (w : W) (world : World) :
  100 <= Status (fn r) <= 599 ->
  WriteBody (fn r) = None ->
  serve (HandlerFunc re fn) r w world
  = (Returned tt, (committed (fn r) w, world)).
Proof.
  intros H Hb. unfold serve, HandlerFunc.
  rewrite (valid_status_test _ H).
  unfold bind. rewrite add_headers_run, Hb.
  rewrite w_WriteHeader_run by lia. reflexivity.
Qed.

Lemma HandlerFunc_streaming (body : BodyFunc) (w : W) (world : World) :
  100 <= Status (fn r) <= 599 ->
  WriteBody (fn r) = Some body ->
  Buffer re = false ->
  serve (HandlerFunc re fn) r w world
  = (Returned tt,
     (fst (call_body Write body (committed (fn r) w)),
      match snd (call_body Write body (committed (fn r) w)) with
      | Some e => log (body_error_record re "Error streaming response body" r e) world
      | None => world
      end)).
Proof.
  intros H Hb Hs. unfold serve, HandlerFunc.
  rewrite (valid_status_test _ H).
  unfold bind. rewrite add_headers_run, Hb, Hs. cbn [negb]. cbv beta iota.
  rewrite w_WriteHeader_run by lia. rewrite WriteBody_to_sink_run.
  fold (committed (fn r) w).
  destruct (snd (call_body Write body (committed (fn r) w))); reflexivity.
Qed.

Lemma HandlerFunc_buffering_failed (body : BodyFunc) (buf : bytes_Buffer)
  (e : error) (w : W) (world : World) :
  100 <= Status (fn r) <= 599 ->
  WriteBody (fn r) = Some body ->
  Buffer re = true ->
  WriteBody_to_buffer body = (buf, Some e) ->
  serve (HandlerFunc re fn) r w world
  = (Returned tt,
     (error_sent (headers_added (Headers (fn r)) w),
      log (body_error_record re "Error buffering response body" r e) world)).
Proof.
  intros H Hb Hs Hbuf. unfold serve, HandlerFunc.
  rewrite (valid_status_test _ H).
  unfold bind. rewrite add_headers_run, Hb, Hs, Hbuf. cbn [negb]. cbv beta iota.
  unfold Logger_Error. simpl fst. simpl snd.
  rewrite http_Error_run. reflexivity.
Qed.

Lemma HandlerFunc_buffered (body : BodyFunc) (buf : bytes_Buffer)
  (w : W) (world : World) :
  100 <= Status (fn r) <= 599 ->
  WriteBody (fn r) = Some body ->
  Buffer re = true ->
  WriteBody_to_buffer body = (buf, None) ->
  serve (HandlerFunc re fn) r w world
  = (Returned tt,
     (fst (WriteTo_sink buf (committed (fn r) w)),
      match snd (WriteTo_sink buf (committed (fn r) w)) with
      | Returned (_, Some e) =>
          log (body_error_record re "Error flushing buffered response" r e) world
      | _ => world
      end)).
Proof.
  intros H Hb Hs Hbuf. unfold serve, HandlerFunc.
  rewrite (valid_status_test _ H).
  unfold bind. rewrite add_headers_run, Hb, Hs, Hbuf. cbn [negb]. cbv beta iota.
  rewrite w_WriteHeader_run by lia. rewrite Buffer_WriteTo_run.
  fold (committed (fn r) w).
  destruct (WriteTo_sink_returns buf (committed (fn r) w)) as [m [e E]].
  rewrite E. destruct e; reflexivity.
Qed.

End AnySink.

(* ------------------------------------------------------------------ *)
(** ** The responder, under a Spy *)

Section SpyStates.

Context {W : Type} {RW : ResponseWriter W}.

Lemma values_added_spy (k : string) (vals : list string) :
  forall (w : W) (cs : list Call),
    values_added k vals {| below := w; calls := cs |}
    = {| below := values_added k vals w;
         calls := cs ++ map (fun v => CallHeader (HAdd k v)) vals |}.
Proof.
  induction vals as [|v vals IH]; intros w cs; simpl.
  - rewrite app_nil_r. reflexivity.
  - unfold values_added in *. simpl. rewrite IH.
    rewrite <- app_assoc. reflexivity.
Qed.

Lemma headers_added_spy (headers : http_Header) :
  forall (w : W) (cs : list Call),
    headers_added headers {| below := w; calls := cs |}
    = {| below := headers_added headers w; calls := cs ++ header_calls headers |}.
Proof.
  induction headers as [|[k vals] headers IH]; intros w cs; simpl.
  - rewrite app_nil_r. reflexivity.
  - unfold headers_added in *. simpl. rewrite values_added_spy, IH.
    rewrite <- app_assoc. reflexivity.
Qed.

Lemma committed_spy (resp : Response) (w : W) (cs : list Call) :
  committed resp {| below := w; calls := cs |}
  = {| below := committed resp w;
       calls := cs ++ header_calls (Headers resp) ++ [CallWriteHeader (Status resp)] |}.
Proof.
  unfold committed. rewrite headers_added_spy. simpl.
  destruct (WriteHeader (Status resp) (headers_added (Headers resp) w)).
  simpl. rewrite <- app_assoc. reflexivity.
Qed.

Lemma error_sent_spy (w : W) (cs : list Call) :
  error_sent {| below := w; calls := cs |}
  = {| below := error_sent w; calls := cs ++ error_calls |}.
Proof.
  unfold error_sent. simpl.
  destruct (WriteHeader 500 _) as [w1 rec]. simpl.
  destruct (Write (line "Internal Server Error") w1) as [w2 res]. simpl.
  rewrite <- !app_assoc. reflexivity.
Qed.

Lemma call_body_spy (body : BodyFunc) :
  forall (w : W) (cs : list Call),
    call_body Write body {| below := w; calls := cs |}
    = ({| below := fst (call_body Write body w);
          calls := cs ++ map CallWrite (body_writes Write body w) |},
       snd (call_body Write body w)).
Proof.
  induction body as [err|p next IH]; intros w cs; simpl.
  - rewrite app_nil_r. reflexivity.
  - destruct (Write p w) as [w' [n e]]. rewrite IH. simpl.
    rewrite <- app_assoc. reflexivity.
Qed.

Lemma WriteTo_sink_spy (buf : bytes_Buffer) (w : W) (cs : list Call) :
  WriteTo_sink buf {| below := w; calls := cs |}
  = ({| below := fst (WriteTo_sink buf w);
        calls := cs ++ map CallWrite (if 0 <? len buf then [buf] else []) |},
     snd (WriteTo_sink buf w)).
Proof.
  unfold WriteTo_sink. destruct (0 <? len buf); simpl.
  - destruct (Write buf w) as [w' [m e]].
    destruct (len buf <? m); [reflexivity|].
    destruct e; [reflexivity|].
    destruct (negb (m =? len buf)); reflexivity.
  - rewrite app_nil_r. reflexivity.
Qed.

#[export] Instance Spy_Transport {T : Transport W} : Transport (Spy W).
Proof.
  split.
  - intros code s H. simpl.
    pose proof (WriteHeader_takes code (below s) H) as E.
    destruct (WriteHeader code (below s)). exact E.
  - intros p s. simpl.
    pose proof (Write_count p (below s)) as E.
    destruct (Write p (below s)). exact E.
Qed.

End SpyStates.

Lemma commits_app (cs cs' : list Call) : commits (cs ++ cs') = commits cs ++ commits cs'.
Proof.
  induction cs as [|[op|code|p] cs IH]; simpl; rewrite ?IH; reflexivity.
Qed.

Lemma written_app (cs cs' : list Call) : written (cs ++ cs') = written cs ++ written cs'.
Proof.
  induction cs as [|[op|code|p] cs IH]; simpl; rewrite ?IH; reflexivity.
Qed.

Lemma commits_header_calls (headers : http_Header) : commits (header_calls headers) = [].
Proof.
  induction headers as [|[k vals] headers IH]; simpl; [reflexivity|].
  unfold header_calls in *. simpl. rewrite commits_app, IH, app_nil_r.
  induction vals as [|v vals IHv]; simpl; auto.
Qed.

Lemma written_header_calls (headers : http_Header) : written (header_calls headers) = [].
Proof.
  induction headers as [|[k vals] headers IH]; simpl; [reflexivity|].
  unfold header_calls in *. simpl. rewrite written_app, IH, app_nil_r.
  induction vals as [|v vals IHv]; simpl; auto.
Qed.

Lemma commits_writes (ps : list string) : commits (map CallWrite ps) = [].
Proof. induction ps; simpl; auto. Qed.

(** The recorder is a transport. *)
Lemma Recorder_Transport (sniff : string -> string) :
  @Transport ResponseRecorder (Recorder_ResponseWriter sniff).
Proof.
  split.
  - intros code rw H. simpl. unfold Recorder_WriteHeader.
    destruct (wroteHeader rw); [reflexivity|].
    destruct (Z.ltb_spec code 100); [lia|].
    rewrite Z.gtb_ltb. destruct (Z.ltb_spec 999 code); [lia|]. reflexivity.
  - intros p rw. simpl. unfold len. lia.
Qed.

(** So is a sink whose Write fails, over a transport. *)
Lemma errorResponseWriter_Transport (W : Type) (RW : ResponseWriter W) :
  Transport W -> Transport (errorResponseWriter W).
Proof.
  intros T. split.
  - intros code rw H. simpl.
    pose proof (WriteHeader_takes code (erw_ResponseWriter rw) H) as E.
    destruct (WriteHeader code (erw_ResponseWriter rw)). exact E.
  - intros p rw. simpl. unfold len. lia.
Qed.

(* ------------------------------------------------------------------ *)
(** ** The status a recorder holds *)

Section RecorderStatus.

Variable sniff : string -> string.

Lemma same_status_refl (rw : ResponseRecorder) : same_status rw rw.
Proof. split; reflexivity. Qed.

Lemma same_status_trans (a b c : ResponseRecorder) :
  same_status a b -> same_status b c -> same_status a c.
Proof. intros [H1 H2] [H3 H4]. split; congruence. Qed.

(** Adding headers changes the header map of a recorder and nothing
    else. *)
Lemma Recorder_headers_added_map (headers : http_Header) :
  forall rw : ResponseRecorder,
    exists m, headers_added (RW := Recorder_ResponseWriter sniff) headers rw
              = with_HeaderMap m rw.
Proof.
  assert (Hv : forall k vals (rw : ResponseRecorder),
             exists m, values_added (RW := Recorder_ResponseWriter sniff) k vals rw
                       = with_HeaderMap m rw).
  { intros k vals. unfold values_added.
    induction vals as [|v vals IH]; intros rw; cbn [fold_left].
    - exists (HeaderMap rw). destruct rw; reflexivity.
    - destruct (IH (Header_do (ResponseWriter := Recorder_ResponseWriter sniff)
                      (HAdd k v) rw)) as [m E].
      exists m. rewrite E. reflexivity. }
  unfold headers_added.
  induction headers as [|[k vals] headers IH]; intros rw; cbn [fold_left fst snd].
  - exists (HeaderMap rw). destruct rw; reflexivity.
  - destruct (Hv k vals rw) as [m1 E1]. rewrite E1.
    destruct (IH (with_HeaderMap m1 rw)) as [m E].
    exists m. rewrite E. reflexivity.
Qed.

Lemma Recorder_committed (resp : Response) (rw : ResponseRecorder) :
  wroteHeader rw = false ->
  100 <= Status resp <= 599 ->
  Code (committed (RW := Recorder_ResponseWriter sniff) resp rw) = Status resp
  /\ wroteHeader (committed (RW := Recorder_ResponseWriter sniff) resp rw) = true
  /\ Body (committed (RW := Recorder_ResponseWriter sniff) resp rw) = Body rw.
Proof.
  intros Hw H. unfold committed.
  destruct (Recorder_headers_added_map (Headers resp) rw) as [m E].
  rewrite E. simpl. unfold Recorder_WriteHeader. simpl. rewrite Hw.
  rewrite (proj2 (Z.ltb_ge _ _)) by lia. rewrite Z.gtb_ltb.
  rewrite (proj2 (Z.ltb_ge _ _)) by lia. repeat split; reflexivity.
Qed.

(** The generic 500 response on a recorder that had no status yet. *)
Lemma Recorder_error_sent (headers : http_Header) (rw : ResponseRecorder) :
  wroteHeader rw = false ->
  Code (error_sent (RW := Recorder_ResponseWriter sniff)
          (headers_added (RW := Recorder_ResponseWriter sniff) headers rw)) = 500
  /\ Body (error_sent (RW := Recorder_ResponseWriter sniff)
             (headers_added (RW := Recorder_ResponseWriter sniff) headers rw))
     = (Body rw ++ line "Internal Server Error")%string.
Proof.
  intros Hw.
  destruct (Recorder_headers_added_map headers rw) as [m E].
  rewrite E. unfold error_sent. simpl.
  unfold Recorder_WriteHeader. simpl. rewrite Hw. simpl.
  unfold Recorder_writeHeader. simpl. split; reflexivity.
Qed.

Lemma Recorder_Write_committed (p : string) (rw : ResponseRecorder) :
  wroteHeader rw = true ->
  same_status rw (fst (Recorder_Write sniff p rw)).
Proof.
  intros Hw. unfold Recorder_Write, Recorder_writeHeader. rewrite Hw.
  split; [reflexivity | simpl; rewrite Hw; reflexivity].
Qed.

Lemma Recorder_call_body (body : BodyFunc) :
  forall rw : ResponseRecorder,
    wroteHeader rw = true ->
    same_status rw
      (fst (call_body (Write (ResponseWriter := Recorder_ResponseWriter sniff)) body rw)).
Proof.
  induction body as [err|p next IH]; intros rw Hw; [apply same_status_refl|].
  pose proof (Recorder_Write_committed p rw Hw) as Hp.
  unfold Recorder_Write in Hp. cbn [fst] in Hp.
  cbn [call_body Write Recorder_ResponseWriter]. unfold Recorder_Write.
  eapply same_status_trans; [exact Hp|].
  apply IH. destruct Hp as [_ Hw']. rewrite Hw'. exact Hw.
Qed.

End RecorderStatus.

(** Behind an [errorResponseWriter] the sink is changed by header
    changes and commits only. *)
Lemma errorResponseWriter_committed (W : Type) (RW : ResponseWriter W)
  (resp : Response) (w : W) :
  committed resp {| erw_ResponseWriter := w |}
  = {| erw_ResponseWriter := committed resp w |}.
Proof.
  unfold committed.
  assert (Hv : forall k vals (w0 : W),
             values_added k vals {| erw_ResponseWriter := w0 |}
             = {| erw_ResponseWriter := values_added k vals w0 |}).
  { intros k vals. unfold values_added.
    induction vals as [|v vals IH]; intros w0; simpl; [reflexivity|apply IH]. }
  assert (Hh : forall headers (w0 : W),
             headers_added headers {| erw_ResponseWriter := w0 |}
             = {| erw_ResponseWriter := headers_added headers w0 |}).
  { intros headers. unfold headers_added.
    induction headers as [|[k vals] headers IH]; intros w0; simpl; [reflexivity|].
    rewrite Hv. apply IH. }
  rewrite Hh. simpl.
  destruct (WriteHeader (Status resp) (headers_added (Headers resp) w)).
  reflexivity.
Qed.

Lemma errorResponseWriter_WriteTo (W : Type) (RW : ResponseWriter W)
  (buf : bytes_Buffer) (rw : errorResponseWriter W) :
  fst (WriteTo_sink buf rw) = rw.
Proof.
  unfold WriteTo_sink. destruct (0 <? len buf); [|reflexivity].
  simpl. destruct (len buf <? 0); reflexivity.
Qed.


Section Observed.

Context {W : Type} {RW : ResponseWriter W} {T : Transport W}.
Variables (re : Responder) (fn : ResponseHandlerFunc) (r : Request).
Variables (w : W) (world : World).

Lemma observe_invalid :
  Status (fn r) < 100 \/ Status (fn r) > 599 ->
  observe (HandlerFunc re fn) r w world
  = (Returned tt, error_calls,
     records world
     ++ [ {| to := logger re; level := LevelError;
             msg := "Handler returned a Response with invalid status code";
             attrs := [ ("method", StringValue (Method r));
                        ("path", StringValue (Path (URL r))) ] |} ]).
Proof.
  intros H. unfold observe.
  rewrite (HandlerFunc_invalid re fn r _ world H).
  rewrite error_sent_spy. reflexivity.
Qed.

Lemma observe_nil_body :
  100 <= Status (fn r) <= 599 ->
  WriteBody (fn r) = None ->
  observe (HandlerFunc re fn) r w world
  = (Returned tt,
     header_calls (Headers (fn r)) ++ [CallWriteHeader (Status (fn r))],
     records world).
Proof.
  intros H Hb. unfold observe.
  rewrite (HandlerFunc_nil_body re fn r _ world H Hb).
  rewrite committed_spy. reflexivity.
Qed.

Lemma observe_buffering_failed (body : BodyFunc) (buf : bytes_Buffer) (e : error) :
  100 <= Status (fn r) <= 599 ->
  WriteBody (fn r) = Some body ->
  Buffer re = true ->
  WriteBody_to_buffer body = (buf, Some e) ->
  observe (HandlerFunc re fn) r w world
  = (Returned tt, header_calls (Headers (fn r)) ++ error_calls,
     records world
     ++ [body_error_record re "Error buffering response body" r e]).
Proof.
  intros H Hb Hs Hbuf. unfold observe.
  rewrite (HandlerFunc_buffering_failed re fn r body buf e _ world H Hb Hs Hbuf).
  rewrite headers_added_spy, error_sent_spy. reflexivity.
Qed.

End Observed.

(* ------------------------------------------------------------------ *)
(** ** The responder: invalid status *)

(** C1. When the status of the Response lies outside 100..599 (zero
    included), the handler returns after these calls on its sink and no
    others: the three header changes of [http.Error], one commit, of
    status 500, and one write, of the standard text; the body procedure of
    the Response is never called.  It logs exactly one record, an Error
    whose message holds "invalid status" and whose fields are method and
    path.  A recorder that had no status yet holds code 500. *)
Theorem invalid_status_sends_500 :
  forall (W : Type) (RW : ResponseWriter W) (T : Transport W)
    (re : Responder) (fn : ResponseHandlerFunc) (r : Request) (w : W)
    (world : World),
    Status (fn r) < 100 \/ Status (fn r) > 599 ->
    observe (HandlerFunc re fn) r w world
    = (Returned tt,
       [ CallHeader (HDel "Content-Length");
         CallHeader (HSet "Content-Type" "text/plain; charset=utf-8");
         CallHeader (HSet "X-Content-Type-Options" "nosniff");
         CallWriteHeader 500;
         CallWrite (line "Internal Server Error") ],
       records world
       ++ [ {| to := logger re; level := LevelError;
               msg := "Handler returned a Response with invalid status code";
               attrs := [ ("method", StringValue (Method r));
                          ("path", StringValue (Path (URL r))) ] |} ])
    /\ strings_Contains "Handler returned a Response with invalid status code"
         "invalid status" = true
    /\ (forall (sniff : string -> string) (rw : ResponseRecorder),
           wroteHeader rw = false ->
           Code (fst (snd (serve (HandlerFunc re fn)
                             (RW := Recorder_ResponseWriter sniff) r rw world)))
           = 500).
Proof.
  intros W RW T re fn r w world H. split; [|split].
  - apply observe_invalid; assumption.
  - reflexivity.
  - intros sniff rw Hrw.
    rewrite (@HandlerFunc_invalid _ _ (Recorder_Transport sniff) re fn r rw world H).
    simpl. unfold error_sent. simpl.
    unfold Recorder_WriteHeader. simpl. rewrite Hrw. simpl.
    unfold Recorder_writeHeader. reflexivity.
Qed.

Lemma invalid_status_sends_500_witness :
  let RW := Recorder_ResponseWriter sniff_text in
  let re := {| Logger := Some (slog_New 1); Buffer := false |} in
  observe (HandlerFunc re zeroStatusHandlerFunc) GET_root NewRecorder quiet
  = (Returned tt,
     [ CallHeader (HDel "Content-Length");
       CallHeader (HSet "Content-Type" "text/plain; charset=utf-8");
       CallHeader (HSet "X-Content-Type-Options" "nosniff");
       CallWriteHeader 500;
       CallWrite (line "Internal Server Error") ],
     [ {| to := slog_New 1; level := LevelError;
          msg := "Handler returned a Response with invalid status code";
          attrs := [ ("method", StringValue "GET"); ("path", StringValue "/") ] |} ]).
Proof.
  intros RW re.
  refine (proj1 (invalid_status_sends_500 ResponseRecorder RW
                   (Recorder_Transport sniff_text) re zeroStatusHandlerFunc
                   GET_root NewRecorder quiet _)).
  left. simpl. lia.
Defined.

(** C10. On the invalid-status path the handler returns before the loop
    that copies headers: what it does to the sink and to the log does not
    depend on the headers of the Response, no header of the Response is
    added, and the header map of a recorder is what [http.Error] makes of
    the map it found. *)
Theorem invalid_status_discards_headers :
  forall (W : Type) (RW : ResponseWriter W) (T : Transport W)
    (re : Responder) (fn : ResponseHandlerFunc) (r : Request) (w : W)
    (world : World),
    Status (fn r) < 100 \/ Status (fn r) > 599 ->
    (forall (headers : http_Header),
        serve (HandlerFunc re fn) r w world
        = serve (HandlerFunc re (fun r' => {| Status := Status (fn r');
                                              Headers := headers;
                                              WriteBody := WriteBody (fn r') |}))
            r w world)
    /\ (let cs := snd (fst (observe (HandlerFunc re fn) r w world)) in
        header_ops cs
        = [ HDel "Content-Length";
            HSet "Content-Type" "text/plain; charset=utf-8";
            HSet "X-Content-Type-Options" "nosniff" ]
        /\ forall k v, ~ In (CallHeader (HAdd k v)) cs)
    /\ (forall (sniff : string -> string) (rw : ResponseRecorder),
           HeaderMap (fst (snd (serve (HandlerFunc re fn)
                                  (RW := Recorder_ResponseWriter sniff) r rw world)))
           = Header_Set
               (Header_Set (Header_Del (HeaderMap rw) "Content-Length")
                  "Content-Type" "text/plain; charset=utf-8")
               "X-Content-Type-Options" "nosniff").
Proof.
  intros W RW T re fn r w world H. split; [|split].
  - intros headers.
    rewrite (HandlerFunc_invalid re fn r w world H).
    rewrite (HandlerFunc_invalid re
               (fun r' => {| Status := Status (fn r'); Headers := headers;
                             WriteBody := WriteBody (fn r') |}) r w world H).
    reflexivity.
  - intros cs. subst cs.
    rewrite (observe_invalid re fn r w world H). simpl. split; [reflexivity|].
    intros k v [F|[F|[F|[F|[F|[]]]]]]; discriminate F.
  - intros sniff rw.
    rewrite (@HandlerFunc_invalid _ _ (Recorder_Transport sniff) re fn r rw world H).
    destruct rw as [code0 m0 body0 wrote snap]. destruct wrote; reflexivity.
Qed.

Lemma invalid_status_discards_headers_witness :
  let RW := Recorder_ResponseWriter sniff_text in
  let re := {| Logger := None; Buffer := true |} in
  let fn := fun _ : Request =>
    {| Status := 600; Headers := [("X-Custom", ["kept?"])];
       WriteBody := Some hello_world |} in
  HeaderMap (fst (snd (serve (HandlerFunc re fn) GET_root NewRecorder quiet)))
  = Header_Set
      (Header_Set (Header_Del [] "Content-Length")
         "Content-Type" "text/plain; charset=utf-8")
      "X-Content-Type-Options" "nosniff".
Proof.
  intros RW re fn.
  refine (proj2 (proj2 (invalid_status_discards_headers ResponseRecorder RW
                          (Recorder_Transport sniff_text) re fn GET_root
                          NewRecorder quiet _)) sniff_text NewRecorder).
  right. simpl. lia.
Defined.

(* ------------------------------------------------------------------ *)
(** ** The responder: no body *)

(** C9. When the status is valid and the Response has no body procedure,
    the handler returns after adding the headers of the Response, value by
    value in their order, and committing its status: it writes nothing and
    logs nothing.  A recorder that had no status yet holds the status of
    the Response and the body it had. *)
Theorem nil_body_sends_status_only :
  forall (W : Type) (RW : ResponseWriter W) (T : Transport W)
    (re : Responder) (fn : ResponseHandlerFunc) (r : Request) (w : W)
    (world : World),
    100 <= Status (fn r) <= 599 ->
    WriteBody (fn r) = None ->
    observe (HandlerFunc re fn) r w world
    = (Returned tt,
       flat_map (fun kv => map (fun v => CallHeader (HAdd (fst kv) v)) (snd kv))
         (Headers (fn r))
       ++ [CallWriteHeader (Status (fn r))],
       records world)
    /\ written (snd (fst (observe (HandlerFunc re fn) r w world))) = []
    /\ commits (snd (fst (observe (HandlerFunc re fn) r w world))) = [Status (fn r)]
    /\ (forall (sniff : string -> string) (rw : ResponseRecorder),
           wroteHeader rw = false ->
           Code (fst (snd (serve (HandlerFunc re fn)
                             (RW := Recorder_ResponseWriter sniff) r rw world)))
           = Status (fn r)
           /\ Body (fst (snd (serve (HandlerFunc re fn)
                                (RW := Recorder_ResponseWriter sniff) r rw world)))
              = Body rw).
Proof.
  intros W RW T re fn r w world H Hb.
  assert (E : observe (HandlerFunc re fn) r w world
              = (Returned tt,
                 header_calls (Headers (fn r)) ++ [CallWriteHeader (Status (fn r))],
                 records world)).
  { apply observe_nil_body; assumption. }
  rewrite E. simpl. split; [reflexivity|].
  rewrite written_app, commits_app, written_header_calls, commits_header_calls.
  split; [reflexivity|]. split; [reflexivity|].
  intros sniff rw Hw.
  rewrite (@HandlerFunc_nil_body _ _ (Recorder_Transport sniff) re fn r rw world H Hb).
  cbn [fst snd].
  destruct (Recorder_committed sniff (fn r) rw Hw H) as [Hc [_ Hbody]].
  split; assumption.
Qed.

Lemma nil_body_sends_status_only_witness :
  let RW := Recorder_ResponseWriter sniff_text in
  let re := {| Logger := Some (slog_New 1); Buffer := false |} in
  observe (HandlerFunc re noContentHandlerFunc) GET_root NewRecorder quiet
  = (Returned tt,
     [CallHeader (HAdd "X-Custom" "no body"); CallWriteHeader 204], []).
Proof.
  intros RW re.
  refine (proj1 (nil_body_sends_status_only ResponseRecorder RW
                   (Recorder_Transport sniff_text) re noContentHandlerFunc
                   GET_root NewRecorder quiet _ eq_refl)).
  simpl. unfold StatusNoContent. lia.
Defined.

(* ------------------------------------------------------------------ *)
(** ** The responder: a body that fails while it is buffered *)

(** C3, as the specification words it: after a failure of the body
    procedure in buffered mode the body the client sees is empty.  It is
    not: [http.Error] writes the standard text of the status, and the
    recorder of the test holds it. *)
Lemma buffered_failure_body_not_empty :
  let RW := Recorder_ResponseWriter sniff_text in
  let re := {| Logger := Some (slog_New 1); Buffer := true |} in
  let rec := fst (snd (serve (HandlerFunc re erroredResponseHandlerFunc)
                         GET_root NewRecorder quiet)) in
  Code rec = 500
  /\ Body rec = line "Internal Server Error"
  /\ Body rec <> "".
Proof.
  repeat split. vm_compute. discriminate.
Qed.

(** C3, amended. When the body procedure fails in buffered mode, where
    it wrote to the buffer only, the handler adds the headers of the
    Response and sends the generic 500 response: the one status it commits
    is 500, and the one thing it writes is the standard text "Internal
    Server Error" and a line feed, so that no byte of the Response's body
    reaches the client.  It logs exactly one record, an Error whose
    message holds "Error buffering" and whose fields are path and
    error.  A recorder that had no status yet holds code 500 and, after
    the body it had, the standard text. *)
Theorem buffered_failure_sends_500 :
  forall (W : Type) (RW : ResponseWriter W) (T : Transport W)
    (re : Responder) (fn : ResponseHandlerFunc) (r : Request) (w : W)
    (world : World) (body : BodyFunc) (buf : string) (err : error),
    100 <= Status (fn r) <= 599 ->
    WriteBody (fn r) = Some body ->
    Buffer re = true ->
    call_body Buffer_Write body "" = (buf, Some err) ->
    observe (HandlerFunc re fn) r w world
    = (Returned tt,
       flat_map (fun kv => map (fun v => CallHeader (HAdd (fst kv) v)) (snd kv))
         (Headers (fn r))
       ++ [ CallHeader (HDel "Content-Length");
            CallHeader (HSet "Content-Type" "text/plain; charset=utf-8");
            CallHeader (HSet "X-Content-Type-Options" "nosniff");
            CallWriteHeader 500;
            CallWrite (line "Internal Server Error") ],
       records world
       ++ [ {| to := logger re; level := LevelError;
               msg := "Error buffering response body";
               attrs := [ ("path", StringValue (Path (URL r)));
                          ("error", StringValue (Error err)) ] |} ])
    /\ commits (snd (fst (observe (HandlerFunc re fn) r w world))) = [500]
    /\ written (snd (fst (observe (HandlerFunc re fn) r w world)))
       = [line "Internal Server Error"]
    /\ strings_Contains "Error buffering response body" "Error buffering" = true
    /\ (forall (sniff : string -> string) (rw : ResponseRecorder),
           wroteHeader rw = false ->
           Code (fst (snd (serve (HandlerFunc re fn)
                             (RW := Recorder_ResponseWriter sniff) r rw world)))
           = 500
           /\ Body (fst (snd (serve (HandlerFunc re fn)
                                (RW := Recorder_ResponseWriter sniff) r rw world)))
              = (Body rw ++ line "Internal Server Error")%string).
Proof.
  intros W RW T re fn r w world body buf err H Hb Hs Hbuf.
  rewrite (observe_buffering_failed re fn r w world body buf err H Hb Hs Hbuf).
  simpl. split; [reflexivity|].
  rewrite written_app, commits_app, written_header_calls, commits_header_calls.
  split; [reflexivity|]. split; [reflexivity|]. split; [reflexivity|].
  intros sniff rw Hw.
  rewrite (@HandlerFunc_buffering_failed _ _ (Recorder_Transport sniff) re fn r
             body buf err rw world H Hb Hs Hbuf).
  cbn [fst snd]. apply Recorder_error_sent. exact Hw.
Qed.

Lemma buffered_failure_sends_500_witness :
  let RW := Recorder_ResponseWriter sniff_text in
  let re := {| Logger := Some (slog_New 1); Buffer := true |} in
  observe (HandlerFunc re erroredResponseHandlerFunc) GET_root NewRecorder quiet
  = (Returned tt,
     [ CallHeader (HAdd "Content-Type" "text/plain; charset=utf-8");
       CallHeader (HDel "Content-Length");
       CallHeader (HSet "Content-Type" "text/plain; charset=utf-8");
       CallHeader (HSet "X-Content-Type-Options" "nosniff");
       CallWriteHeader 500;
       CallWrite (line "Internal Server Error") ],
     [ {| to := slog_New 1; level := LevelError;
          msg := "Error buffering response body";
          attrs := [ ("path", StringValue "/");
                     ("error", StringValue "fail on purpose") ] |} ]).
Proof.
  intros RW re.
  refine (proj1 (buffered_failure_sends_500 ResponseRecorder RW
                   (Recorder_Transport sniff_text) re erroredResponseHandlerFunc
                   GET_root NewRecorder quiet
                   (body_return (Some (errors_New "fail on purpose"))) ""
                   (errors_New "fail on purpose") _ eq_refl eq_refl eq_refl)).
  simpl. unfold StatusOK. lia.
Defined.

(* ------------------------------------------------------------------ *)
(** ** The responder: failures after the status is committed *)

Section ObservedBodies.

Context {W : Type} {RW : ResponseWriter W} {T : Transport W}.
Variables (re : Responder) (fn : ResponseHandlerFunc) (r : Request).
Variables (w : W) (world : World) (body : BodyFunc).
Hypothesis valid : 100 <= Status (fn r) <= 599.
Hypothesis has_body : WriteBody (fn r) = Some body.

Lemma observe_streaming :
  Buffer re = false ->
  observe (HandlerFunc re fn) r w world
  = (Returned tt,
     header_calls (Headers (fn r)) ++ [CallWriteHeader (Status (fn r))]
     ++ map CallWrite (body_writes Write body (committed (fn r) w)),
     records
       match snd (call_body Write body (committed (fn r) w)) with
       | Some e => log (body_error_record re "Error streaming response body" r e) world
       | None => world
       end).
Proof.
  intros Hs. unfold observe.
  rewrite (HandlerFunc_streaming re fn r body _ world valid has_body Hs).
  rewrite committed_spy, call_body_spy. simpl.
  rewrite <- app_assoc. reflexivity.
Qed.

Lemma observe_buffered (buf : bytes_Buffer) :
  Buffer re = true ->
  WriteBody_to_buffer body = (buf, None) ->
  observe (HandlerFunc re fn) r w world
  = (Returned tt,
     header_calls (Headers (fn r)) ++ [CallWriteHeader (Status (fn r))]
     ++ map CallWrite (if 0 <? len buf then [buf] else []),
     records
       match snd (WriteTo_sink buf (committed (fn r) w)) with
       | Returned (_, Some e) =>
           log (body_error_record re "Error flushing buffered response" r e) world
       | _ => world
       end).
Proof.
  intros Hs Hbuf. unfold observe.
  rewrite (HandlerFunc_buffered re fn r body buf _ world valid has_body Hs Hbuf).
  rewrite committed_spy, WriteTo_sink_spy. simpl.
  rewrite <- app_assoc. reflexivity.
Qed.

End ObservedBodies.

Lemma commits_served (headers : http_Header) (code : Z) (ps : list string) :
  commits (header_calls headers ++ [CallWriteHeader code] ++ map CallWrite ps)
  = [code].
Proof.
  rewrite !commits_app, commits_header_calls, commits_writes. reflexivity.
Qed.

(** C2. When the body procedure fails while it streams to the sink, or
    when the flush of the buffer to the sink fails after the body was
    buffered without error, the handler returns after adding the headers,
    committing the status of the Response and writing: the one status it
    commits is the Response's, and nothing of an error response (no header
    change, no second commit) follows.  It logs exactly one record, an
    Error with the fields path and error.  A recorder that had no status
    yet holds the status of the Response, when the body streams to it and
    when it stands behind a sink whose Write fails. *)
Theorem post_commit_failure_keeps_status :
  forall (W : Type) (RW : ResponseWriter W) (T : Transport W)
    (re : Responder) (fn : ResponseHandlerFunc) (r : Request) (w : W)
    (world : World) (body : BodyFunc) (err : error),
    100 <= Status (fn r) <= 599 ->
    WriteBody (fn r) = Some body ->
    ((Buffer re = false
      /\ snd (call_body Write body (committed (fn r) w)) = Some err)
     \/ (Buffer re = true
         /\ exists (buf : string) (n : Z),
             call_body Buffer_Write body "" = (buf, None)
             /\ snd (WriteTo_sink buf (committed (fn r) w))
                = Returned (n, Some err))) ->
    (exists ws : list string,
        observe (HandlerFunc re fn) r w world
        = (Returned tt,
           flat_map (fun kv => map (fun v => CallHeader (HAdd (fst kv) v)) (snd kv))
             (Headers (fn r))
           ++ [CallWriteHeader (Status (fn r))] ++ map CallWrite ws,
           records world
           ++ [ {| to := logger re; level := LevelError;
                   msg := if Buffer re then "Error flushing buffered response"
                          else "Error streaming response body";
                   attrs := [ ("path", StringValue (Path (URL r)));
                              ("error", StringValue (Error err)) ] |} ]))
    /\ commits (snd (fst (observe (HandlerFunc re fn) r w world)))
       = [Status (fn r)]
    /\ (forall (sniff : string -> string) (rw : ResponseRecorder),
           wroteHeader rw = false ->
           Buffer re = false ->
           Code (fst (snd (serve (HandlerFunc re fn)
                             (RW := Recorder_ResponseWriter sniff) r rw world)))
           = Status (fn r))
    /\ (forall (sniff : string -> string) (rw : ResponseRecorder) (buf : string),
           wroteHeader rw = false ->
           Buffer re = true ->
           call_body Buffer_Write body "" = (buf, None) ->
           Code (erw_ResponseWriter
                   (fst (snd (serve (HandlerFunc re fn)
                                (RW := @errorResponseWriter_ResponseWriter _
                                         (Recorder_ResponseWriter sniff))
                                r {| erw_ResponseWriter := rw |} world))))
           = Status (fn r)).
Proof.
  intros W RW T re fn r w world body err H Hb Hpath.
  split; [|split; [|split]].
  - destruct Hpath as [[Hs Herr]|[Hs [buf [n [Hbuf Herr]]]]].
    + exists (body_writes Write body (committed (fn r) w)).
      rewrite (observe_streaming re fn r w world body H Hb Hs), Herr, Hs.
      reflexivity.
    + exists (if 0 <? len buf then [buf] else []).
      rewrite (observe_buffered re fn r w world body H Hb buf Hs Hbuf), Herr, Hs.
      reflexivity.
  - destruct Hpath as [[Hs Herr]|[Hs [buf [n [Hbuf Herr]]]]].
    + rewrite (observe_streaming re fn r w world body H Hb Hs).
      apply commits_served.
    + rewrite (observe_buffered re fn r w world body H Hb buf Hs Hbuf).
      apply commits_served.
  - intros sniff rw Hw Hs.
    rewrite (@HandlerFunc_streaming _ _ (Recorder_Transport sniff) re fn r body
               rw world H Hb Hs).
    cbn [fst snd].
    destruct (Recorder_committed sniff (fn r) rw Hw H) as [Hc [Hw' _]].
    destruct (Recorder_call_body sniff body _ Hw') as [Hc' _].
    rewrite Hc', Hc. reflexivity.
  - intros sniff rw buf Hw Hs Hbuf.
    rewrite (@HandlerFunc_buffered _ _
               (errorResponseWriter_Transport _ _ (Recorder_Transport sniff))
               re fn r body buf _ world H Hb Hs Hbuf).
    cbn [fst snd].
    rewrite errorResponseWriter_WriteTo, errorResponseWriter_committed.
    cbn [erw_ResponseWriter].
    apply (Recorder_committed sniff (fn r) rw Hw H).
Qed.

Lemma post_commit_failure_keeps_status_witness :
  let RW := @errorResponseWriter_ResponseWriter _ (Recorder_ResponseWriter sniff_text) in
  let re := {| Logger := Some (slog_New 1); Buffer := true |} in
  (exists ws : list string,
      observe (HandlerFunc re simpleResponseHandlerFunc) GET_root
        {| erw_ResponseWriter := NewRecorder |} quiet
      = (Returned tt,
         [CallHeader (HAdd "Content-Type" "text/plain; charset=utf-8")]
         ++ [CallWriteHeader 200] ++ map CallWrite ws,
         [ {| to := slog_New 1; level := LevelError;
              msg := "Error flushing buffered response";
              attrs := [ ("path", StringValue "/");
                         ("error", StringValue "write failure") ] |} ]))
  /\ commits (snd (fst (observe (HandlerFunc re simpleResponseHandlerFunc)
                          GET_root {| erw_ResponseWriter := NewRecorder |} quiet)))
     = [200].
Proof.
  intros RW re.
  refine (let proved :=
            post_commit_failure_keeps_status (errorResponseWriter ResponseRecorder) RW
              (errorResponseWriter_Transport _ _ (Recorder_Transport sniff_text))
              re simpleResponseHandlerFunc GET_root
              {| erw_ResponseWriter := NewRecorder |} quiet hello_world
              (errors_New "write failure") _ eq_refl _ in
          conj (proj1 proved) (proj1 (proj2 proved))).
  - simpl. unfold StatusOK. lia.
  - right. split; [reflexivity|].
    exists "hello, world", 0. split; reflexivity.
Defined.

(** The two tests of this path: the recorder keeps the 200 of the
    Response, streaming or behind a sink that cannot be written to. *)
Example test_post_commit_failures :
  let RW := Recorder_ResponseWriter sniff_text in
  let streamed :=
    serve (HandlerFunc {| Logger := Some (slog_New 1); Buffer := false |}
             erroredResponseHandlerFunc) GET_root NewRecorder quiet in
  let flushed :=
    serve (HandlerFunc {| Logger := Some (slog_New 1); Buffer := true |}
             simpleResponseHandlerFunc) GET_root
      {| erw_ResponseWriter := NewRecorder |} quiet in
  Code (fst (snd streamed)) = 200
  /\ map msg (records (snd (snd streamed))) = ["Error streaming response body"]
  /\ Code (erw_ResponseWriter (fst (snd flushed))) = 200
  /\ Body (erw_ResponseWriter (fst (snd flushed))) = ""
  /\ map msg (records (snd (snd flushed))) = ["Error flushing buffered response"].
Proof. repeat split; reflexivity. Qed.

(* ------------------------------------------------------------------ *)
(** ** The responder: one commit, and one record per error *)

(** C4. On every path of the handler (invalid status, no body, streaming
    with or without an error of the body, failed buffering, buffered with
    or without an error of the flush) the handler returns having
    committed exactly one status on its sink, and the records it logs are
    exactly one on an error path and none on the others. *)
Theorem one_commit_one_record_per_error :
  forall (W : Type) (RW : ResponseWriter W) (T : Transport W)
    (re : Responder) (fn : ResponseHandlerFunc) (r : Request) (w : W)
    (world : World),
    exists (cs : list Call) (rs : list slog_Record),
      observe (HandlerFunc re fn) r w world
      = (Returned tt, cs, records world ++ rs)
      /\ List.length (commits cs) = 1%nat
      /\ List.length rs
         = (if is_error_path (path_of re (fn r) w) then 1 else 0)%nat.
Proof.
  intros W RW T re fn r w world. unfold path_of.
  destruct (Z_lt_dec (Status (fn r)) 100) as [Hlo|Hlo];
    [|destruct (Z_gt_dec (Status (fn r)) 599) as [Hhi|Hhi]].
  1,2: (assert (H : Status (fn r) < 100 \/ Status (fn r) > 599) by lia;
        rewrite (invalid_status_test _ H);
        rewrite (observe_invalid re fn r w world H);
        eexists; eexists; split; [reflexivity|]; split; reflexivity).
  assert (H : 100 <= Status (fn r) <= 599) by lia.
  rewrite (valid_status_test _ H).
  destruct (WriteBody (fn r)) as [body|] eqn:Hb.
  - destruct (Buffer re) eqn:Hs.
    + destruct (WriteBody_to_buffer body) as [buf [e|]] eqn:Hbuf.
      * rewrite (observe_buffering_failed re fn r w world body buf e H Hb Hs Hbuf).
        eexists; eexists. split; [reflexivity|].
        rewrite commits_app, commits_header_calls. split; reflexivity.
      * rewrite (observe_buffered re fn r w world body H Hb buf Hs Hbuf).
        destruct (WriteTo_sink_returns buf (committed (fn r) w)) as [m [e E]].
        rewrite E.
        exists (header_calls (Headers (fn r)) ++ [CallWriteHeader (Status (fn r))]
                ++ map CallWrite (if 0 <? len buf then [buf] else [])).
        rewrite commits_served.
        destruct e as [e|]; simpl.
        -- eexists. split; [reflexivity|]. split; reflexivity.
        -- exists []. rewrite app_nil_r. split; [reflexivity|]. split; reflexivity.
    + rewrite (observe_streaming re fn r w world body H Hb Hs).
      exists (header_calls (Headers (fn r)) ++ [CallWriteHeader (Status (fn r))]
              ++ map CallWrite (body_writes Write body (committed (fn r) w))).
      rewrite commits_served.
      destruct (snd (call_body Write body (committed (fn r) w))) as [e|]; simpl.
      * eexists. split; [reflexivity|]. split; reflexivity.
      * exists []. rewrite app_nil_r. split; [reflexivity|]. split; reflexivity.
  - rewrite (observe_nil_body re fn r w world H Hb).
    eexists. exists []. rewrite app_nil_r. split; [reflexivity|].
    rewrite commits_app, commits_header_calls. split; reflexivity.
Qed.

Lemma one_commit_one_record_per_error_witness :
  let RW := Recorder_ResponseWriter sniff_text in
  let re := {| Logger := Some (slog_New 1); Buffer := false |} in
  exists (cs : list Call) (rs : list slog_Record),
    observe (HandlerFunc re erroredResponseHandlerFunc) GET_root NewRecorder quiet
    = (Returned tt, cs, [] ++ rs)
    /\ List.length (commits cs) = 1%nat
    /\ List.length rs = 1%nat.
Proof.
  intros RW re.
  exact (one_commit_one_record_per_error ResponseRecorder RW
           (Recorder_Transport sniff_text) re erroredResponseHandlerFunc
           GET_root NewRecorder quiet).
Defined.

(* ------------------------------------------------------------------ *)
(** ** The tests of the repository, replayed *)

(** TestResponder_Logger. *)
Example test_Responder_Logger :
  logger {| Logger := None; Buffer := false |} = slog_Default
  /\ logger {| Logger := Some (slog_New 1); Buffer := false |} = slog_New 1.
Proof. split; reflexivity. Qed.

(** TestResponder_HandlerFunc: code, body and log message of its seven
    cases, and the path each one takes. *)
Example test_Responder_HandlerFunc :
  let RW := Recorder_ResponseWriter sniff_text in
  let re b := {| Logger := Some (slog_New 1); Buffer := b |} in
  let seen (out : Outcome unit * (ResponseRecorder * World)) :=
    (Code (fst (snd out)), Body (fst (snd out)), map msg (records (snd (snd out)))) in
  seen (serve (HandlerFunc (re false) zeroStatusHandlerFunc) GET_root NewRecorder quiet)
  = (500, line "Internal Server Error",
     ["Handler returned a Response with invalid status code"])
  /\ seen (serve (HandlerFunc (re false) erroredResponseHandlerFunc) GET_root NewRecorder quiet)
     = (200, "", ["Error streaming response body"])
  /\ seen (serve (HandlerFunc (re true) erroredResponseHandlerFunc) GET_root NewRecorder quiet)
     = (500, line "Internal Server Error", ["Error buffering response body"])
  /\ seen (serve (HandlerFunc (re false) noContentHandlerFunc) GET_root NewRecorder quiet)
     = (204, "", [])
  /\ seen (serve (HandlerFunc (re false) simpleResponseHandlerFunc) GET_root NewRecorder quiet)
     = (200, "hello, world", [])
  /\ seen (serve (HandlerFunc (re true) simpleResponseHandlerFunc) GET_root NewRecorder quiet)
     = (200, "hello, world", [])
  /\ Header_Values
       (HeaderMap (fst (snd (serve (HandlerFunc (re false) noContentHandlerFunc)
                               GET_root NewRecorder quiet)))) "X-Custom"
     = ["no body"]
  /\ path_of (re false) (zeroStatusHandlerFunc GET_root) NewRecorder = InvalidStatus
  /\ path_of (re false) (erroredResponseHandlerFunc GET_root) NewRecorder
     = Streaming (Some (errors_New "fail on purpose"))
  /\ path_of (re true) (erroredResponseHandlerFunc GET_root) NewRecorder
     = BufferingFailed (errors_New "fail on purpose")
  /\ path_of (re false) (noContentHandlerFunc GET_root) NewRecorder = NilBody
  /\ path_of (re false) (simpleResponseHandlerFunc GET_root) NewRecorder = Streaming None
  /\ path_of (re true) (simpleResponseHandlerFunc GET_root) NewRecorder
     = Buffered (Returned (12, None))
  /\ path_of (RW := errorResponseWriter_ResponseWriter) (re true)
       (simpleResponseHandlerFunc GET_root) {| erw_ResponseWriter := NewRecorder |}
     = Buffered (Returned (0, Some (errors_New "write failure"))).
Proof. repeat split; reflexivity. Qed.

(** TestAccessLoggerOutput: with the default logger the record goes to
    the default logger, and to no other. *)
Example test_AccessLogger_default :
  let RW := Recorder_ResponseWriter sniff_text in
  map to (records (snd (snd (serve (AccessLogger None "" (commit StatusOK))
                               GET_root NewRecorder quiet))))
  = [slog_Default].
Proof. reflexivity. Qed.

(* ------------------------------------------------------------------ *)
(** ** More on Queue and Stack *)

(** X1. With no wrapper, [Queue] and [Stack] return the handler they are
    given, and with one wrapper both apply it. *)
Theorem Queue_Stack_empty_and_single :
  forall (h : Handler),
    Queue [] h = h /\ Stack [] h = h
    /\ forall (m : Handler -> Handler), Queue [m] h = m h /\ Stack [m] h = m h.
Proof.
  intros h. split; [reflexivity|]. split; [reflexivity|].
  intros m. split; reflexivity.
Qed.

(** X2. [Queue] and [Stack] are each other on the reversed sequence. *)
Theorem Queue_Stack_reverse :
  forall (ms : list (Handler -> Handler)) (h : Handler),
    Queue ms h = Stack (rev ms) h /\ Stack ms h = Queue (rev ms) h.
Proof.
  intros ms h. rewrite !Queue_nest, !Stack_nest, rev_involutive.
  split; reflexivity.
Qed.

(** X3. A sequence in two parts: [Queue] applies the first part to the
    handler and the second part around the result; [Stack] applies the
    second part to the handler and the first part around the result. *)
Theorem Queue_Stack_append :
  forall (ms ms' : list (Handler -> Handler)) (h : Handler),
    Queue (ms ++ ms') h = Queue ms' (Queue ms h)
    /\ Stack (ms ++ ms') h = Stack ms (Stack ms' h).
Proof.
  intros ms ms' h. split.
  - rewrite !Queue_fold. apply fold_left_app.
  - rewrite !Stack_nest. unfold nest. apply fold_right_app.
Qed.

(* ------------------------------------------------------------------ *)
(** ** Bodies on a buffer and on a recorder *)

Lemma append_empty_r (s : string) : (s ++ "")%string = s.
Proof. induction s as [|c s IH]; simpl; [reflexivity|rewrite IH; reflexivity]. Qed.

Lemma append_append (a b c : string) : ((a ++ b) ++ c)%string = (a ++ (b ++ c))%string.
Proof. induction a as [|x a IH]; simpl; [reflexivity|rewrite IH; reflexivity]. Qed.

Lemma len_zero (s : string) : (0 <? len s) = false -> s = EmptyString.
Proof.
  destruct s as [|c s]; [reflexivity|]. unfold len. simpl String.length.
  intros H. apply Z.ltb_ge in H. lia.
Qed.

Lemma with_Body_same (rw : ResponseRecorder) : with_Body (Body rw) rw = rw.
Proof. destruct rw; reflexivity. Qed.

(** On a buffer a body procedure sees every write taken: the buffer
    grows by what the procedure writes. *)
Lemma call_body_buffer (body : BodyFunc) :
  forall b : bytes_Buffer,
    call_body Buffer_Write body b
    = ((b ++ join (fst (accepted body)))%string, snd (accepted body)).
Proof.
  induction body as [err|p next IH]; intros b; simpl.
  - rewrite append_empty_r. reflexivity.
  - unfold Buffer_Write at 1. rewrite IH.
    destruct (accepted (next (len p) None)) as [ps e]. simpl.
    rewrite append_append. reflexivity.
Qed.

Lemma WriteBody_to_buffer_accepted (body : BodyFunc) :
  WriteBody_to_buffer body = (join (fst (accepted body)), snd (accepted body)).
Proof. unfold WriteBody_to_buffer. rewrite call_body_buffer. reflexivity. Qed.

Section RecorderBodies.

Variable sniff : string -> string.

(** Once the status is committed, a write changes the body of a recorder
    and nothing else. *)
Lemma Recorder_Write_after_commit (p : string) (rw : ResponseRecorder) :
  wroteHeader rw = true ->
  Recorder_Write sniff p rw = (with_Body (Body rw ++ p) rw, (len p, None)).
Proof.
  intros Hw. unfold Recorder_Write, Recorder_writeHeader. rewrite Hw.
  reflexivity.
Qed.

Lemma Recorder_call_body_accepted (body : BodyFunc) :
  forall rw : ResponseRecorder,
    wroteHeader rw = true ->
    call_body (Write (ResponseWriter := Recorder_ResponseWriter sniff)) body rw
    = (with_Body (Body rw ++ join (fst (accepted body))) rw, snd (accepted body)).
Proof.
  induction body as [err|p next IH]; intros rw Hw.
  - simpl. rewrite append_empty_r, with_Body_same. reflexivity.
  - cbn [call_body Write Recorder_ResponseWriter].
    rewrite (Recorder_Write_after_commit p rw Hw).
    rewrite IH by exact Hw.
    cbn [accepted]. destruct (accepted (next (len p) None)) as [ps e].
    cbn [fst snd join fold_right with_Body Body].
    rewrite append_append. reflexivity.
Qed.

(** The flush of a buffer to a committed recorder. *)
Lemma Recorder_WriteTo_after_commit (buf : bytes_Buffer) (rw : ResponseRecorder) :
  wroteHeader rw = true ->
  WriteTo_sink (RW := Recorder_ResponseWriter sniff) buf rw
  = (with_Body (Body rw ++ buf) rw,
     Returned (if 0 <? len buf then len buf else 0, None)).
Proof.
  intros Hw. unfold WriteTo_sink.
  destruct (0 <? len buf) eqn:E.
  - cbn [Write Recorder_ResponseWriter].
    rewrite (Recorder_Write_after_commit buf rw Hw).
    rewrite Z.ltb_irrefl, Z.eqb_refl. reflexivity.
  - rewrite (len_zero buf E), append_empty_r, with_Body_same. reflexivity.
Qed.

End RecorderBodies.

(* ------------------------------------------------------------------ *)
(** ** The responder: what the body leaves on the sink *)



(** X5. In buffered mode, when the body procedure returns no error and
    the sink takes the flush, the sink gets the whole body in one write,
    after the headers and the one commit of the status of the Response,
    and nothing is logged. *)
Theorem buffered_body_in_one_write :
  forall (W : Type) (RW : ResponseWriter W) (T : Transport W)
    (re : Responder) (fn : ResponseHandlerFunc) (r : Request) (w : W)
    (world : World) (body : BodyFunc) (n : Z),
    100 <= Status (fn r) <= 599 ->
    WriteBody (fn r) = Some body ->
    Buffer re = true ->
    snd (accepted body) = None ->
    join (fst (accepted body)) <> EmptyString ->
    snd (WriteTo_sink (join (fst (accepted body))) (committed (fn r) w))
    = Returned (n, None) ->
    observe (HandlerFunc re fn) r w world
    = (Returned tt,
       flat_map (fun kv => map (fun v => CallHeader (HAdd (fst kv) v)) (snd kv))
         (Headers (fn r))
       ++ [ CallWriteHeader (Status (fn r));
            CallWrite (join (fst (accepted body))) ],
       records world).
Proof.
  intros W RW T re fn r w world body n H Hb Hs Hok Hne Hflush.
  assert (Hbuf : WriteBody_to_buffer body = (join (fst (accepted body)), None)).
  { rewrite WriteBody_to_buffer_accepted, Hok. reflexivity. }
  rewrite (observe_buffered re fn r w world body H Hb _ Hs Hbuf), Hflush.
  destruct (0 <? len (join (fst (accepted body)))) eqn:E.
  - reflexivity.
  - elim Hne. apply len_zero. exact E.
Qed.

Lemma buffered_body_in_one_write_witness :
  let RW := Recorder_ResponseWriter sniff_text in
  let re := {| Logger := None; Buffer := true |} in
  observe (HandlerFunc re simpleResponseHandlerFunc) GET_root NewRecorder quiet
  = (Returned tt,
     [ CallHeader (HAdd "Content-Type" "text/plain; charset=utf-8");
       CallWriteHeader 200; CallWrite "hello, world" ],
     []).
Proof.
  intros RW re.
  refine (buffered_body_in_one_write ResponseRecorder RW
            (Recorder_Transport sniff_text) re simpleResponseHandlerFunc GET_root
            NewRecorder quiet hello_world 12 _ eq_refl eq_refl eq_refl _ eq_refl).
  - simpl. unfold StatusOK. lia.
  - simpl. discriminate.
Defined.

(** X6. In buffered mode a body procedure that returns no error and
    writes no byte leaves nothing to flush: the handler adds the headers,
    commits the status and makes no write at all, so that nothing is
    logged even on a sink whose every Write fails. *)
Theorem buffered_empty_body_is_not_flushed :
  forall (W : Type) (RW : ResponseWriter W) (T : Transport W)
    (re : Responder) (fn : ResponseHandlerFunc) (r : Request) (w : W)
    (world : World) (body : BodyFunc),
    100 <= Status (fn r) <= 599 ->
    WriteBody (fn r) = Some body ->
    Buffer re = true ->
    snd (accepted body) = None ->
    join (fst (accepted body)) = EmptyString ->
    observe (HandlerFunc re fn) r w world
    = (Returned tt,
       flat_map (fun kv => map (fun v => CallHeader (HAdd (fst kv) v)) (snd kv))
         (Headers (fn r))
       ++ [CallWriteHeader (Status (fn r))],
       records world).
Proof.
  intros W RW T re fn r w world body H Hb Hs Hok Hempty.
  assert (Hbuf : WriteBody_to_buffer body = (EmptyString, None)).
  { rewrite WriteBody_to_buffer_accepted, Hok, Hempty. reflexivity. }
  rewrite (observe_buffered re fn r w world body H Hb _ Hs Hbuf).
  reflexivity.
Qed.

Lemma buffered_empty_body_is_not_flushed_witness :
  let RW := @errorResponseWriter_ResponseWriter _ (Recorder_ResponseWriter sniff_text) in
  let re := {| Logger := None; Buffer := true |} in
  let fn := fun _ : Request =>
    {| Status := 200; Headers := [("X-Custom", ["a"; "b"])];
       WriteBody := Some (body_write "" (fun _ err => body_return err)) |} in
  observe (HandlerFunc re fn) GET_root {| erw_ResponseWriter := NewRecorder |} quiet
  = (Returned tt,
     [ CallHeader (HAdd "X-Custom" "a"); CallHeader (HAdd "X-Custom" "b");
       CallWriteHeader 200 ],
     []).
Proof.
  intros RW re fn.
  refine (buffered_empty_body_is_not_flushed (errorResponseWriter ResponseRecorder) RW
            (errorResponseWriter_Transport _ _ (Recorder_Transport sniff_text))
            re fn GET_root {| erw_ResponseWriter := NewRecorder |} quiet
            _ _ eq_refl eq_refl eq_refl eq_refl).
  simpl. lia.
Defined.



(* ------------------------------------------------------------------ *)
(** ** The responder: headers *)

Lemma header_lookup_delete (h : http_Header) (k k' : string) :
  header_lookup (header_delete h k) k'
  = if String.eqb k k' then [] else header_lookup h k'.
Proof.
  induction h as [|[k0 vs] h IH]; simpl.
  - destruct (String.eqb k k'); reflexivity.
  - destruct (String.eqb_spec k0 k) as [->|Hk0]; simpl.
    + rewrite IH. destruct (String.eqb k k'); reflexivity.
    + rewrite IH.
      destruct (String.eqb_spec k0 k') as [->|Hk0']; [|reflexivity].
      destruct (String.eqb_spec k k'); [congruence|reflexivity].
Qed.

Lemma header_lookup_store (h : http_Header) (k k' : string) (vs : list string) :
  header_lookup (header_store h k vs) k'
  = if String.eqb k k' then vs else header_lookup h k'.
Proof.
  induction h as [|[k0 old] h IH]; simpl.
  - destruct (String.eqb k k'); reflexivity.
  - destruct (String.eqb_spec k0 k) as [->|Hk0]; simpl.
    + destruct (String.eqb_spec k k') as [->|Hk]; [reflexivity|].
      rewrite header_lookup_delete.
      destruct (String.eqb_spec k k'); [congruence|reflexivity].
    + rewrite IH.
      destruct (String.eqb_spec k0 k') as [->|Hk0']; [|reflexivity].
      destruct (String.eqb_spec k k'); [congruence|reflexivity].
Qed.

Lemma header_lookup_Add (h : http_Header) (key v k' : string) :
  header_lookup (Header_Add h key v) k'
  = header_lookup h k'
    ++ (if String.eqb (CanonicalMIMEHeaderKey key) k' then [v] else []).
Proof.
  unfold Header_Add. rewrite header_lookup_store.
  destruct (String.eqb_spec (CanonicalMIMEHeaderKey key) k') as [->|_];
    [reflexivity | rewrite app_nil_r; reflexivity].
Qed.

Section RecorderHeaders.

Variable sniff : string -> string.

Lemma Recorder_values_added_lookup (k : string) (vals : list string) (k' : string) :
  forall rw : ResponseRecorder,
    header_lookup
      (HeaderMap (values_added (RW := Recorder_ResponseWriter sniff) k vals rw)) k'
    = header_lookup (HeaderMap rw) k'
      ++ (if String.eqb (CanonicalMIMEHeaderKey k) k' then vals else []).
Proof.
  unfold values_added.
  induction vals as [|v vals IH]; intros rw; cbn [fold_left].
  - destruct (String.eqb _ k'); rewrite app_nil_r; reflexivity.
  - rewrite IH. cbn [Header_do Recorder_ResponseWriter Recorder_Header_do
                       HeaderMap header_apply].
    rewrite header_lookup_Add.
    destruct (String.eqb (CanonicalMIMEHeaderKey k) k').
    + rewrite <- app_assoc. reflexivity.
    + rewrite !app_nil_r. reflexivity.
Qed.

Lemma Recorder_headers_added_lookup (headers : http_Header) (k' : string) :
  forall rw : ResponseRecorder,
    header_lookup
      (HeaderMap (headers_added (RW := Recorder_ResponseWriter sniff) headers rw)) k'
    = header_lookup (HeaderMap rw) k' ++ values_for k' headers.
Proof.
  unfold headers_added.
  induction headers as [|[k vals] headers IH]; intros rw; cbn [fold_left fst snd].
  - simpl. rewrite app_nil_r. reflexivity.
  - rewrite IH, Recorder_values_added_lookup. unfold values_for. simpl.
    rewrite <- app_assoc. reflexivity.
Qed.

Lemma Recorder_committed_headers (resp : Response) (rw : ResponseRecorder) :
  wroteHeader rw = false ->
  100 <= Status resp <= 599 ->
  HeaderMap (committed (RW := Recorder_ResponseWriter sniff) resp rw)
  = HeaderMap (headers_added (RW := Recorder_ResponseWriter sniff) (Headers resp) rw)
  /\ snapHeader (committed (RW := Recorder_ResponseWriter sniff) resp rw)
     = Some (HeaderMap (headers_added (RW := Recorder_ResponseWriter sniff)
                         (Headers resp) rw)).
Proof.
  intros Hw H. unfold committed.
  destruct (Recorder_headers_added_map sniff (Headers resp) rw) as [m E].
  rewrite E. simpl. unfold Recorder_WriteHeader. simpl. rewrite Hw.
  rewrite (proj2 (Z.ltb_ge _ _)) by lia. rewrite Z.gtb_ltb.
  rewrite (proj2 (Z.ltb_ge _ _)) by lia. split; reflexivity.
Qed.

End RecorderHeaders.

(** X8. Whenever the handler commits the status of the Response (no
    body, a streamed body, or a body buffered without error), a recorder
    that had no status yet holds under every key the values it had,
    followed by all the values the Response has for that key, in their
    order and with repetitions kept; the headers were added before the
    commit, so the snapshot the recorder took at the commit is this
    map. *)
Theorem response_headers_are_sent_in_order :
  forall (sniff : string -> string) (re : Responder) (fn : ResponseHandlerFunc)
    (r : Request) (rw : ResponseRecorder) (world : World) (k : string),
    100 <= Status (fn r) <= 599 ->
    wroteHeader rw = false ->
    (WriteBody (fn r) = None
     \/ exists body, WriteBody (fn r) = Some body
                     /\ (Buffer re = false \/ snd (accepted body) = None)) ->
    let out := fst (snd (serve (HandlerFunc re fn)
                           (RW := Recorder_ResponseWriter sniff) r rw world)) in
    header_lookup (HeaderMap out) k
    = header_lookup (HeaderMap rw) k ++ values_for k (Headers (fn r))
    /\ snapHeader out = Some (HeaderMap out).
Proof.
  intros sniff re fn r rw world k H Hw Hpath out. subst out.
  destruct (Recorder_committed_headers sniff (fn r) rw Hw H) as [Hm Hsnap].
  destruct (Recorder_committed sniff (fn r) rw Hw H) as [_ [Hw' _]].
  assert (Hgoal : forall b,
             header_lookup
               (HeaderMap (with_Body b
                  (committed (RW := Recorder_ResponseWriter sniff) (fn r) rw))) k
             = header_lookup (HeaderMap rw) k ++ values_for k (Headers (fn r))
             /\ snapHeader (with_Body b
                  (committed (RW := Recorder_ResponseWriter sniff) (fn r) rw))
                = Some (HeaderMap (with_Body b
                     (committed (RW := Recorder_ResponseWriter sniff) (fn r) rw)))).
  { intros b. cbn [with_Body HeaderMap snapHeader].
    rewrite Hsnap, Hm, Recorder_headers_added_lookup. split; reflexivity. }
  destruct Hpath as [Hb|[body [Hb Hmode]]].
  - rewrite (@HandlerFunc_nil_body _ _ (Recorder_Transport sniff) re fn r rw world
               H Hb).
    cbn [fst snd]. rewrite <- (with_Body_same (committed (fn r) rw)).
    apply Hgoal.
  - destruct (Buffer re) eqn:Hs.
    + destruct Hmode as [Hf|Hok]; [discriminate|].
      assert (Hbuf : WriteBody_to_buffer body = (join (fst (accepted body)), None)).
      { rewrite WriteBody_to_buffer_accepted, Hok. reflexivity. }
      rewrite (@HandlerFunc_buffered _ _ (Recorder_Transport sniff) re fn r body _
                 rw world H Hb Hs Hbuf).
      rewrite (Recorder_WriteTo_after_commit sniff _ _ Hw').
      cbn [fst snd]. apply Hgoal.
    + rewrite (@HandlerFunc_streaming _ _ (Recorder_Transport sniff) re fn r body
                 rw world H Hb Hs).
      rewrite (Recorder_call_body_accepted sniff body _ Hw').
      cbn [fst snd]. apply Hgoal.
Qed.

Lemma response_headers_are_sent_in_order_witness :
  let RW := Recorder_ResponseWriter sniff_text in
  let re := {| Logger := None; Buffer := false |} in
  let fn := fun _ : Request =>
    {| Status := 200;
       Headers := [ ("set-cookie", ["a=1"; "b=2"]); ("X-Custom", ["x"]);
                    ("Set-Cookie", ["a=1"]) ];
       WriteBody := None |} in
  let out := fst (snd (serve (HandlerFunc re fn) GET_root NewRecorder quiet)) in
  header_lookup (HeaderMap out) "Set-Cookie" = [] ++ ["a=1"; "b=2"; "a=1"]
  /\ snapHeader out = Some (HeaderMap out).
Proof.
  intros RW re fn.
  refine (response_headers_are_sent_in_order sniff_text re fn GET_root NewRecorder
            quiet "Set-Cookie" _ eq_refl (or_introl eq_refl)).
  simpl. lia.
Defined.

(* ------------------------------------------------------------------ *)
(** ** The responder behind the access logger *)

Section CaptureStates.

Context {W : Type} {RW : ResponseWriter W}.

Lemma headers_added_capture (headers : http_Header) :
  forall (w : W) (s : Z),
    headers_added headers {| cw_ResponseWriter := w; status := s |}
    = {| cw_ResponseWriter := headers_added headers w; status := s |}.
Proof.
  assert (Hv : forall k vals (w : W) (s : Z),
             values_added k vals {| cw_ResponseWriter := w; status := s |}
             = {| cw_ResponseWriter := values_added k vals w; status := s |}).
  { intros k vals. unfold values_added.
    induction vals as [|v vals IH]; intros w s; cbn [fold_left]; [reflexivity|].
    apply IH. }
  unfold headers_added.
  induction headers as [|[k vals] headers IH]; intros w s; cbn [fold_left fst snd].
  - reflexivity.
  - rewrite Hv. apply IH.
Qed.

Lemma committed_capture (resp : Response) (w : W) (s : Z) :
  Status resp <> 0 ->
  committed resp {| cw_ResponseWriter := w; status := s |}
  = {| cw_ResponseWriter := committed resp w; status := Status resp |}.
Proof.
  intros H. unfold committed. rewrite headers_added_capture.
  cbn [WriteHeader captureWriter_ResponseWriter]. unfold captureWriter_WriteHeader.
  destruct (Z.eqb_spec (Status resp) 0) as [E|_]; [contradiction|].
  cbn [cw_ResponseWriter status].
  destruct (WriteHeader (Status resp) (headers_added (Headers resp) w)).
  reflexivity.
Qed.

Lemma error_sent_capture (w : W) (s : Z) :
  error_sent {| cw_ResponseWriter := w; status := s |}
  = {| cw_ResponseWriter := error_sent w; status := 500 |}.
Proof.
  unfold error_sent. simpl. unfold captureWriter_WriteHeader. simpl.
  destruct (WriteHeader 500 _) as [w1 rec]. simpl.
  destruct (Write (line "Internal Server Error") w1) as [w2 res]. reflexivity.
Qed.

Lemma call_body_capture (body : BodyFunc) :
  forall (w : W) (s : Z),
    call_body Write body {| cw_ResponseWriter := w; status := s |}
    = ({| cw_ResponseWriter := fst (call_body Write body w); status := s |},
       snd (call_body Write body w)).
Proof.
  induction body as [err|p next IH]; intros w s; simpl; [reflexivity|].
  destruct (Write p w) as [w' [n e]]. apply IH.
Qed.

Lemma WriteTo_sink_capture (buf : bytes_Buffer) (w : W) (s : Z) :
  WriteTo_sink buf {| cw_ResponseWriter := w; status := s |}
  = ({| cw_ResponseWriter := fst (WriteTo_sink buf w); status := s |},
     snd (WriteTo_sink buf w)).
Proof.
  unfold WriteTo_sink. destruct (0 <? len buf); simpl; [|reflexivity].
  destruct (Write buf w) as [w' [m e]].
  destruct (len buf <? m); [reflexivity|].
  destruct e; [reflexivity|].
  destruct (negb (m =? len buf)); reflexivity.
Qed.

#[export] Instance captureWriter_Transport {T : Transport W}
  : Transport (captureWriter W).
Proof.
  split.
  - intros code rw H. simpl. unfold captureWriter_WriteHeader.
    destruct (Z.eqb_spec code 0) as [E|_]; [lia|]. simpl.
    pose proof (WriteHeader_takes code (cw_ResponseWriter rw) H) as E.
    destruct (WriteHeader code (cw_ResponseWriter rw)). exact E.
  - intros p rw. simpl.
    pose proof (Write_count p (cw_ResponseWriter rw)) as E.
    destruct (Write p (cw_ResponseWriter rw)). exact E.
Qed.

(** What [AccessLogger] does around a handler that returns. *)
Lemma AccessLogger_run (logger : option slog_Logger) (prefix : string)
  (h : Handler) (r : Request) (w : W) (world : World)
  (rw' : captureWriter W) (world' : World) :
  serve h r {| cw_ResponseWriter := w; status := 0 |} world
  = (Returned tt, (rw', world')) ->
  serve (AccessLogger logger prefix h) r w world
  = (Returned tt,
     (cw_ResponseWriter rw',
      log (access_record logger prefix r (status rw') (now world' - now world))
        world')).
Proof.
  intros E. unfold serve in *.
  unfold AccessLogger, bind, time_Now, with_captureWriter. simpl fst. simpl snd.
  rewrite E. unfold time_Since, Logger_Info, access_attrs, access_record, or_Default.
  simpl. destruct logger; reflexivity.
Qed.

(** What [AccessLogger] does around a handler that panics. *)
Lemma AccessLogger_run_panic (logger : option slog_Logger) (prefix : string)
  (h : Handler) (r : Request) (w : W) (world : World) (rec : any)
  (rw' : captureWriter W) (world' : World) :
  serve h r {| cw_ResponseWriter := w; status := 0 |} world
  = (Panicked rec, (rw', world')) ->
  serve (AccessLogger logger prefix h) r w world
  = (Panicked rec, (cw_ResponseWriter rw', world')).
Proof.
  intros E. unfold serve in *.
  unfold AccessLogger, bind, time_Now, with_captureWriter. simpl fst. simpl snd.
  rewrite E. reflexivity.
Qed.

Context {T : Transport W}.

(** The responder served with the adapter does to the sink and to the
    log what it does without it, and the adapter ends with the one status
    the responder commits. *)
Lemma HandlerFunc_capture (re : Responder) (fn : ResponseHandlerFunc)
  (r : Request) (w : W) (world : World) :
  exists code : Z,
    commits (snd (fst (observe (HandlerFunc re fn) r w world))) = [code]
    /\ serve (HandlerFunc re fn) r {| cw_ResponseWriter := w; status := 0 |} world
       = (Returned tt,
          ({| cw_ResponseWriter := fst (snd (serve (HandlerFunc re fn) r w world));
              status := code |},
           snd (snd (serve (HandlerFunc re fn) r w world))))
    /\ (code = 500 \/ code = Status (fn r)).
Proof.
  destruct (Z_lt_dec (Status (fn r)) 100) as [Hlo|Hlo];
    [|destruct (Z_gt_dec (Status (fn r)) 599) as [Hhi|Hhi]].
  1,2: (assert (H : Status (fn r) < 100 \/ Status (fn r) > 599) by lia;
        exists 500;
        rewrite (observe_invalid re fn r w world H);
        rewrite (HandlerFunc_invalid re fn r w world H);
        rewrite (HandlerFunc_invalid re fn r _ world H);
        rewrite error_sent_capture; split; [reflexivity|split; [reflexivity|left; reflexivity]]).
  assert (H : 100 <= Status (fn r) <= 599) by lia.
  assert (Hnz : Status (fn r) <> 0) by lia.
  destruct (WriteBody (fn r)) as [body|] eqn:Hb.
  - destruct (Buffer re) eqn:Hs.
    + destruct (WriteBody_to_buffer body) as [buf [e|]] eqn:Hbuf.
      * exists 500.
        rewrite (observe_buffering_failed re fn r w world body buf e H Hb Hs Hbuf).
        rewrite (HandlerFunc_buffering_failed re fn r body buf e w world H Hb Hs Hbuf).
        rewrite (HandlerFunc_buffering_failed re fn r body buf e _ world H Hb Hs Hbuf).
        rewrite headers_added_capture, error_sent_capture.
        split; [|split; [reflexivity|left; reflexivity]].
        cbn [fst snd]. rewrite commits_app, commits_header_calls. reflexivity.
      * exists (Status (fn r)).
        rewrite (observe_buffered re fn r w world body H Hb buf Hs Hbuf).
        rewrite (HandlerFunc_buffered re fn r body buf w world H Hb Hs Hbuf).
        rewrite (HandlerFunc_buffered re fn r body buf _ world H Hb Hs Hbuf).
        rewrite (committed_capture _ _ _ Hnz), WriteTo_sink_capture.
        split; [|split; [reflexivity|right; reflexivity]].
        cbn [fst snd]. apply commits_served.
    + exists (Status (fn r)).
      rewrite (observe_streaming re fn r w world body H Hb Hs).
      rewrite (HandlerFunc_streaming re fn r body w world H Hb Hs).
      rewrite (HandlerFunc_streaming re fn r body _ world H Hb Hs).
      rewrite (committed_capture _ _ _ Hnz), call_body_capture.
      split; [|split; [reflexivity|right; reflexivity]].
      cbn [fst snd]. apply commits_served.
  - exists (Status (fn r)).
    rewrite (observe_nil_body re fn r w world H Hb).
    rewrite (HandlerFunc_nil_body re fn r w world H Hb).
    rewrite (HandlerFunc_nil_body re fn r _ world H Hb).
    rewrite (committed_capture _ _ _ Hnz).
    split; [|split; [reflexivity|right; reflexivity]].
    cbn [fst snd]. rewrite commits_app, commits_header_calls. reflexivity.
Qed.

End CaptureStates.

(** X9. Around the responder, [AccessLogger] changes nothing of what the
    responder does to the sink and to the log, and then logs one record
    whose status is the one status the responder committed: the status of
    the Response, or 500 after an invalid status or a failed buffering. *)
Theorem AccessLogger_logs_the_committed_status :
  forall (W : Type) (RW : ResponseWriter W) (T : Transport W)
    (logger : option slog_Logger) (prefix : string)
    (re : Responder) (fn : ResponseHandlerFunc) (r : Request) (w : W)
    (world : World),
    let alone := serve (HandlerFunc re fn) r w world in
    exists code : Z,
      commits (snd (fst (observe (HandlerFunc re fn) r w world))) = [code]
      /\ serve (AccessLogger logger prefix (HandlerFunc re fn)) r w world
         = (Returned tt,
            (fst (snd alone),
             {| now := now (snd (snd alone));
                records :=
                  records (snd (snd alone))
                  ++ [access_record logger prefix r code
                        (now (snd (snd alone)) - now world)];
                stack := stack (snd (snd alone)) |}))
      /\ (code = 500 \/ code = Status (fn r)).
Proof.
  intros W RW T logger prefix re fn r w world alone. subst alone.
  destruct (HandlerFunc_capture re fn r w world) as [code [Hc [E Hcode]]].
  exists code. split; [exact Hc|]. split; [|exact Hcode].
  rewrite (AccessLogger_run logger prefix _ r w world _ _ E). reflexivity.
Qed.

Lemma AccessLogger_logs_the_committed_status_witness :
  let RW := Recorder_ResponseWriter sniff_text in
  let re := {| Logger := Some (slog_New 1); Buffer := true |} in
  let alone := serve (HandlerFunc re erroredResponseHandlerFunc) GET_root
                 NewRecorder quiet in
  exists code : Z,
    commits (snd (fst (observe (HandlerFunc re erroredResponseHandlerFunc)
                         GET_root NewRecorder quiet))) = [code]
    /\ serve (AccessLogger None "access" (HandlerFunc re erroredResponseHandlerFunc))
         GET_root NewRecorder quiet
       = (Returned tt,
          (fst (snd alone),
           {| now := now (snd (snd alone));
              records :=
                records (snd (snd alone))
                ++ [access_record None "access" GET_root code
                      (now (snd (snd alone)) - now quiet)];
              stack := stack (snd (snd alone)) |}))
    /\ (code = 500 \/ code = 200).
Proof.
  intros RW re.
  exact (AccessLogger_logs_the_committed_status ResponseRecorder RW
           (Recorder_Transport sniff_text) None "access" re
           erroredResponseHandlerFunc GET_root NewRecorder quiet).
Defined.

(* ------------------------------------------------------------------ *)
(** ** The status the adapter holds and the status the client gets *)

Lemma last_default (A : Type) (a : A) (l : list A) (d d' : A) :
  last (a :: l) d = last (a :: l) d'.
Proof.
  revert a. induction l as [|b l IH]; intros a; [reflexivity|].
  change (last (b :: l) d = last (b :: l) d'). apply IH.
Qed.

Section CommitEach.

Context {W : Type} {RW : ResponseWriter W} {T : Transport W}.

(** Through the adapter every code of a sequence reaches the sink, and
    the adapter holds the last one. *)
Lemma commit_each_capture (codes : list Z) :
  Forall (fun code => 100 <= code <= 999) codes ->
  forall (w : W) (s : Z) (world : World),
    commit_each codes ({| cw_ResponseWriter := w; status := s |}, world)
    = (Returned tt,
       ({| cw_ResponseWriter := fold_left (fun w code => fst (WriteHeader code w)) codes w;
           status := last codes s |}, world)).
Proof.
  induction 1 as [|code codes Hcode _ IH]; intros w s world; [reflexivity|].
  cbn [commit_each]. unfold bind.
  rewrite (w_WriteHeader_run code _ world Hcode).
  cbn [WriteHeader captureWriter_ResponseWriter]. unfold captureWriter_WriteHeader.
  destruct (Z.eqb_spec code 0) as [E|_]; [lia|]. cbn [cw_ResponseWriter status].
  destruct (WriteHeader code w) as [w' rec] eqn:E. cbn [fst].
  rewrite IH. cbn [fold_left]. rewrite E. cbn [fst].
  destruct codes as [|code' codes]; [reflexivity|].
  rewrite (last_default Z code' codes code s). reflexivity.
Qed.

End CommitEach.

(** A recorder keeps the first code of a sequence of commits. *)
Lemma Recorder_commits (sniff : string -> string) (codes : list Z) :
  Forall (fun code => 100 <= code <= 999) codes ->
  forall rw : ResponseRecorder,
    Code (fold_left (fun w code =>
                       fst (WriteHeader (ResponseWriter := Recorder_ResponseWriter sniff)
                              code w)) codes rw)
    = if wroteHeader rw then Code rw else hd (Code rw) codes.
Proof.
  induction 1 as [|code codes Hcode _ IH]; intros rw; cbn [fold_left hd].
  - destruct (wroteHeader rw); reflexivity.
  - rewrite IH. cbn [WriteHeader Recorder_ResponseWriter].
    unfold Recorder_WriteHeader.
    destruct (wroteHeader rw) eqn:Hw; cbn [fst]; [rewrite Hw; reflexivity|].
    rewrite (proj2 (Z.ltb_ge _ _)) by lia. rewrite Z.gtb_ltb.
    rewrite (proj2 (Z.ltb_ge _ _)) by lia. reflexivity.
Qed.

(** X10. The adapter of [AccessLogger] overwrites its status at every
    [WriteHeader] call, while a recorder keeps the status of the first
    one: for a handler that commits several codes in turn, the recorder
    holds the first code and the record reports the last. *)
Theorem AccessLogger_reports_the_last_commit :
  forall (sniff : string -> string) (logger : option slog_Logger) (prefix : string)
    (r : Request) (rw : ResponseRecorder) (world : World)
    (code : Z) (codes : list Z),
    Forall (fun code => 100 <= code <= 999) (code :: codes) ->
    wroteHeader rw = false ->
    let out := serve (AccessLogger logger prefix (commit_all (code :: codes)))
                 (RW := Recorder_ResponseWriter sniff) r rw world in
    fst out = Returned tt
    /\ Code (fst (snd out)) = code
    /\ records (snd (snd out))
       = records world
         ++ [access_record logger prefix r (last codes code) (now world - now world)].
Proof.
  intros sniff logger prefix r rw world code codes Hcodes Hw out. subst out.
  rewrite (@AccessLogger_run _ (Recorder_ResponseWriter sniff) logger prefix
             (commit_all (code :: codes)) r rw world _ world
             (@commit_each_capture _ _ (Recorder_Transport sniff) (code :: codes)
                Hcodes rw 0 world)).
  cbn [fst snd cw_ResponseWriter status records log].
  rewrite (Recorder_commits sniff (code :: codes) Hcodes rw), Hw.
  repeat split; try reflexivity.
  destruct codes as [|code' codes]; [reflexivity|].
  rewrite (last_default Z code' codes code 0). reflexivity.
Qed.

Lemma AccessLogger_reports_the_last_commit_witness :
  let RW := Recorder_ResponseWriter sniff_text in
  let out := serve (AccessLogger None "" (commit_all [200; 404; 500]))
               GET_root NewRecorder quiet in
  fst out = Returned tt
  /\ Code (fst (snd out)) = 200
  /\ records (snd (snd out)) = [] ++ [access_record None "" GET_root 500 (0 - 0)].
Proof.
  intros RW.
  refine (AccessLogger_reports_the_last_commit sniff_text None "" GET_root
            NewRecorder quiet 200 [404; 500] _ eq_refl).
  repeat constructor; lia.
Defined.

(* ------------------------------------------------------------------ *)
(** ** The panic barrier and the access logger, combined *)

(** X11. The order of the two wrappers decides whether a request whose
    handler panics gets an access record.  With the barrier outermost the
    panic leaves [AccessLogger] before it logs: the only record is the
    barrier's, and the fallback serves the sink itself.  With the logger
    outermost the barrier turns the panic into a return inside the
    adapter: when the fallback returns, the access record follows, with
    the status the adapter holds after the fallback. *)
Theorem barrier_and_logger_order :
  forall (fallback h : Handler) (l1 l2 : option slog_Logger) (prefix : string)
    (W : Type) (RW : ResponseWriter W) (r : Request) (w : W) (world : World)
    (rec : any) (rw1 : captureWriter W) (world1 : World),
    serve h r {| cw_ResponseWriter := w; status := 0 |} world
    = (Panicked rec, (rw1, world1)) ->
    let logged := log (panic_record l2 rec (stack world1)) world1 in
    serve (Stack [RecoverAndHandle fallback l2; AccessLogger l1 prefix] h) r w world
    = serve fallback r (cw_ResponseWriter rw1) logged
    /\ (forall (rw2 : captureWriter W) (world2 : World),
           serve fallback r rw1 logged = (Returned tt, (rw2, world2)) ->
           serve (Stack [AccessLogger l1 prefix; RecoverAndHandle fallback l2] h)
             r w world
           = (Returned tt,
              (cw_ResponseWriter rw2,
               log (access_record l1 prefix r (status rw2) (now world2 - now world))
                 world2))).
Proof.
  intros fallback h l1 l2 prefix W RW r w world rec rw1 world1 E logged.
  split.
  - change (Stack [RecoverAndHandle fallback l2; AccessLogger l1 prefix] h)
      with (RecoverAndHandle fallback l2 (AccessLogger l1 prefix h)).
    pose proof (AccessLogger_run_panic l1 prefix h r w world rec rw1 world1 E) as P.
    unfold serve in *. rewrite RecoverAndHandle_run, P. reflexivity.
  - intros rw2 world2 F.
    change (Stack [AccessLogger l1 prefix; RecoverAndHandle fallback l2] h)
      with (AccessLogger l1 prefix (RecoverAndHandle fallback l2 h)).
    apply AccessLogger_run.
    unfold serve in *. rewrite RecoverAndHandle_run, E. exact F.
Qed.

Lemma barrier_and_logger_order_witness :
  let RW := Recorder_ResponseWriter sniff_text in
  let logged := log (panic_record None (any_string "reached panic") "") quiet in
  serve (Stack [RecoverAndHandle fallback None; AccessLogger None "access"]
           reached_panic) GET_root NewRecorder quiet
  = serve fallback GET_root NewRecorder logged
  /\ serve (Stack [AccessLogger None "access"; RecoverAndHandle fallback None]
              reached_panic) GET_root NewRecorder quiet
     = (Returned tt,
        ({| Code := 500; HeaderMap := []; Body := "caught panic";
            wroteHeader := true; snapHeader := Some [] |},
         log (access_record None "access" GET_root 500 (0 - 0)) logged)).
Proof.
  intros RW logged.
  refine (let proved :=
            barrier_and_logger_order fallback reached_panic None None "access"
              ResponseRecorder RW GET_root NewRecorder quiet
              (any_string "reached panic")
              {| cw_ResponseWriter := NewRecorder; status := 0 |} quiet eq_refl in
          conj (proj1 proved) (proj2 proved _ _ eq_refl)).
Defined.

(* ------------------------------------------------------------------ *)
(** ** The responder behind a sink whose Write fails *)

Section FailingWrites.

Variable sniff : string -> string.

Lemma Recorder_WriteHeader_Body (code : Z) (rw : ResponseRecorder) :
  Body (fst (Recorder_WriteHeader code rw)) = Body rw.
Proof.
  unfold Recorder_WriteHeader. destruct (wroteHeader rw); [reflexivity|].
  destruct ((code <? 100) || (code >? 999)); reflexivity.
Qed.

Lemma Recorder_committed_Body (resp : Response) (rw : ResponseRecorder) :
  Body (committed (RW := Recorder_ResponseWriter sniff) resp rw) = Body rw.
Proof.
  unfold committed.
  destruct (Recorder_headers_added_map sniff (Headers resp) rw) as [m E].
  rewrite E. cbn [WriteHeader Recorder_ResponseWriter].
  rewrite Recorder_WriteHeader_Body. reflexivity.
Qed.

Lemma errorResponseWriter_headers_added (W : Type) (RW : ResponseWriter W)
  (headers : http_Header) :
  forall w : W,
    headers_added headers {| erw_ResponseWriter := w |}
    = {| erw_ResponseWriter := headers_added headers w |}.
Proof.
  assert (Hv : forall k vals (w0 : W),
             values_added k vals {| erw_ResponseWriter := w0 |}
             = {| erw_ResponseWriter := values_added k vals w0 |}).
  { intros k vals. unfold values_added.
    induction vals as [|v vals IH]; intros w0; cbn [fold_left]; [reflexivity|apply IH]. }
  unfold headers_added.
  induction headers as [|[k vals] headers IH]; intros w; cbn [fold_left fst snd].
  - reflexivity.
  - rewrite Hv. apply IH.
Qed.

Lemma errorResponseWriter_call_body (W : Type) (RW : ResponseWriter W)
  (body : BodyFunc) (rw : errorResponseWriter W) :
  fst (call_body Write body rw) = rw.
Proof.
  induction body as [err|p next IH]; [reflexivity|].
  cbn [call_body Write errorResponseWriter_ResponseWriter].
  unfold errorResponseWriter_Write. apply IH.
Qed.

Lemma errorResponseWriter_error_sent_Body (rw : ResponseRecorder) :
  Body (erw_ResponseWriter
          (error_sent (RW := @errorResponseWriter_ResponseWriter _
                               (Recorder_ResponseWriter sniff))
             {| erw_ResponseWriter := rw |}))
  = Body rw.
Proof.
  unfold error_sent.
  cbn [Write WriteHeader Header_do errorResponseWriter_ResponseWriter
         erw_ResponseWriter Recorder_ResponseWriter].
  unfold errorResponseWriter_Write. cbn [fst].
  destruct (Recorder_WriteHeader 500 _) as [rw' rec] eqn:E. cbn [fst erw_ResponseWriter].
  change rw' with (fst (rw', rec)). rewrite <- E.
  rewrite Recorder_WriteHeader_Body. reflexivity.
Qed.

End FailingWrites.

(** X12. Behind [errorResponseWriter], whose Write fails and passes
    nothing on, no byte reaches the recorder on any path of the responder:
    the body of the recorder is the one it had. *)
Theorem nothing_is_written_behind_errorResponseWriter :
  forall (sniff : string -> string) (re : Responder) (fn : ResponseHandlerFunc)
    (r : Request) (rw : ResponseRecorder) (world : World),
    Body (erw_ResponseWriter
            (fst (snd (serve (HandlerFunc re fn)
                         (RW := @errorResponseWriter_ResponseWriter _
                                  (Recorder_ResponseWriter sniff))
                         r {| erw_ResponseWriter := rw |} world))))
    = Body rw.
Proof.
  intros sniff re fn r rw world.
  pose (T := errorResponseWriter_Transport _ _ (Recorder_Transport sniff)).
  destruct (Z_lt_dec (Status (fn r)) 100) as [Hlo|Hlo];
    [|destruct (Z_gt_dec (Status (fn r)) 599) as [Hhi|Hhi]].
  1,2: (assert (H : Status (fn r) < 100 \/ Status (fn r) > 599) by lia;
        rewrite (@HandlerFunc_invalid _ _ T re fn r _ world H);
        cbn [fst snd]; apply errorResponseWriter_error_sent_Body).
  assert (H : 100 <= Status (fn r) <= 599) by lia.
  destruct (WriteBody (fn r)) as [body|] eqn:Hb.
  - destruct (Buffer re) eqn:Hs.
    + destruct (WriteBody_to_buffer body) as [buf [e|]] eqn:Hbuf.
      * rewrite (@HandlerFunc_buffering_failed _ _ T re fn r body buf e _ world
                   H Hb Hs Hbuf).
        cbn [fst snd]. rewrite errorResponseWriter_headers_added.
        rewrite errorResponseWriter_error_sent_Body.
        destruct (Recorder_headers_added_map sniff (Headers (fn r)) rw) as [m E].
        rewrite E. reflexivity.
      * rewrite (@HandlerFunc_buffered _ _ T re fn r body buf _ world H Hb Hs Hbuf).
        cbn [fst snd].
        rewrite errorResponseWriter_WriteTo, errorResponseWriter_committed.
        apply Recorder_committed_Body.
    + rewrite (@HandlerFunc_streaming _ _ T re fn r body _ world H Hb Hs).
      cbn [fst snd].
      rewrite errorResponseWriter_call_body, errorResponseWriter_committed.
      apply Recorder_committed_Body.
  - rewrite (@HandlerFunc_nil_body _ _ T re fn r _ world H Hb).
    cbn [fst snd]. rewrite errorResponseWriter_committed.
    apply Recorder_committed_Body.
Qed.

(* ------------------------------------------------------------------ *)
(** ** Where the responder logs *)

(** X13. Whatever the responder logs goes to its own logger (the
    configured one, or the default one for nil) at level Error: it never
    logs at another level or to another logger, and it keeps the records
    that were there. *)
Theorem responder_logs_errors_to_its_logger :
  forall (W : Type) (RW : ResponseWriter W) (T : Transport W)
    (re : Responder) (fn : ResponseHandlerFunc) (r : Request) (w : W)
    (world : World),
    exists rs : list slog_Record,
      records (snd (snd (serve (HandlerFunc re fn) r w world)))
      = records world ++ rs
      /\ Forall (fun e => to e = logger re /\ level e = LevelError) rs.
Proof.
  intros W RW T re fn r w world.
  destruct (Z_lt_dec (Status (fn r)) 100) as [Hlo|Hlo];
    [|destruct (Z_gt_dec (Status (fn r)) 599) as [Hhi|Hhi]].
  1,2: (assert (H : Status (fn r) < 100 \/ Status (fn r) > 599) by lia;
        rewrite (HandlerFunc_invalid re fn r w world H);
        eexists; split; [reflexivity|]; repeat constructor).
  assert (H : 100 <= Status (fn r) <= 599) by lia.
  destruct (WriteBody (fn r)) as [body|] eqn:Hb.
  - destruct (Buffer re) eqn:Hs.
    + destruct (WriteBody_to_buffer body) as [buf [e|]] eqn:Hbuf.
      * rewrite (HandlerFunc_buffering_failed re fn r body buf e w world H Hb Hs Hbuf).
        eexists; split; [reflexivity|]; repeat constructor.
      * rewrite (HandlerFunc_buffered re fn r body buf w world H Hb Hs Hbuf).
        cbn [fst snd].
        destruct (snd (WriteTo_sink buf (committed (fn r) w))) as [[m [e|]]|rec].
        -- eexists; split; [reflexivity|]; repeat constructor.
        -- exists []. rewrite app_nil_r. split; [reflexivity|constructor].
        -- exists []. rewrite app_nil_r. split; [reflexivity|constructor].
    + rewrite (HandlerFunc_streaming re fn r body w world H Hb Hs).
      cbn [fst snd].
      destruct (snd (call_body Write body (committed (fn r) w))) as [e|].
      * eexists; split; [reflexivity|]; repeat constructor.
      * exists []. rewrite app_nil_r. split; [reflexivity|constructor].
  - rewrite (HandlerFunc_nil_body re fn r w world H Hb).
    exists []. rewrite app_nil_r. split; [reflexivity|constructor].
Qed.

Lemma responder_logs_errors_to_its_logger_witness :
  let RW := Recorder_ResponseWriter sniff_text in
  let re := {| Logger := Some (slog_New 7); Buffer := true |} in
  exists rs : list slog_Record,
    records (snd (snd (serve (HandlerFunc re erroredResponseHandlerFunc)
                         GET_root NewRecorder quiet)))
    = [] ++ rs
    /\ Forall (fun e => to e = slog_New 7 /\ level e = LevelError) rs.
Proof.
  intros RW re.
  exact (responder_logs_errors_to_its_logger ResponseRecorder RW
           (Recorder_Transport sniff_text) re erroredResponseHandlerFunc
           GET_root NewRecorder quiet).
Defined.

(* ------------------------------------------------------------------ *)
(** ** The stack in the record of the barrier *)

Lemma strings_Split_nonempty (s : string) (sep : ascii) : strings_Split s sep <> [].
Proof.
  destruct s as [|c s]; simpl; [discriminate|].
  destruct (Ascii.eqb c sep); [discriminate|].
  destruct (strings_Split s sep); discriminate.
Qed.

Lemma unlines_cons (l : string) (rest : list string) :
  rest <> [] -> unlines (l :: rest) = (l ++ String LF (unlines rest))%string.
Proof. destruct rest; [congruence|reflexivity]. Qed.

(** Splitting at line feeds loses nothing: the lines, joined by line
    feeds, are the string. *)
Lemma unlines_Split (s : string) : unlines (strings_Split s LF) = s.
Proof.
  induction s as [|c s IH]; [reflexivity|].
  cbn [strings_Split].
  destruct (Ascii.eqb_spec c LF) as [->|Hc].
  - rewrite unlines_cons by apply strings_Split_nonempty.
    rewrite IH. reflexivity.
  - pose proof (strings_Split_nonempty s LF) as Hne.
    destruct (strings_Split s LF) as [|piece pieces]; [congruence|].
    destruct pieces as [|p pieces].
    + simpl in *. rewrite IH. reflexivity.
    + rewrite unlines_cons by discriminate.
      rewrite unlines_cons in IH by discriminate.
      cbn [String.append]. rewrite IH. reflexivity.
Qed.

(** No piece holds the separator. *)
Lemma strings_Split_pieces (s : string) (sep : ascii) :
  Forall (fun piece => ~ In sep (list_ascii_of_string piece)) (strings_Split s sep).
Proof.
  induction s as [|c s IH]; simpl.
  - constructor; [intros []|constructor].
  - destruct (Ascii.eqb_spec c sep) as [->|Hc].
    + constructor; [intros []|exact IH].
    + destruct (strings_Split s sep) as [|piece pieces].
      * constructor; [|constructor]. simpl. intros [E|[]]. congruence.
      * inversion IH as [|? ? Hp Hps]; subst.
        constructor; [|exact Hps]. simpl. intros [E|Hin]; [congruence|].
        exact (Hp Hin).
Qed.

(** X14. The record the barrier logs for a panic keeps the whole stack
    dump: its stack field is a sequence of strings none of which holds a
    line feed, and joined by line feeds they are the dump. *)
Theorem RecoverAndHandle_keeps_the_stack :
  forall (fallback h : Handler) (logger : option slog_Logger) (W : Type)
    (RW : ResponseWriter W) (r : Request) (w : W) (world : World)
    (rec : any) (w' : W) (world' : World),
    serve h r w world = (Panicked rec, (w', world')) ->
    exists lines : list string,
      serve (RecoverAndHandle fallback logger h) r w world
      = serve fallback r w'
          (log {| to := match logger with Some l => l | None => slog_Default end;
                  level := LevelError;
                  msg := "PANIC caught by middleware.PanicBroker";
                  attrs := [ ("error", StringValue (fmt_Sprint rec));
                             ("stack", AnyValue lines) ] |} world')
      /\ unlines lines = stack world'
      /\ Forall (fun l => ~ In LF (list_ascii_of_string l)) lines.
Proof.
  intros fallback h logger W RW r w world rec w' world' E.
  exists (strings_Split (stack world') LF). split; [|split].
  - unfold serve in *. rewrite RecoverAndHandle_run, E. reflexivity.
  - apply unlines_Split.
  - apply strings_Split_pieces.
Qed.

Lemma RecoverAndHandle_keeps_the_stack_witness :
  let RW := Recorder_ResponseWriter sniff_text in
  let dump := (line "goroutine 1 [running]:" ++ line "main.handler()")%string in
  let world := {| now := 0; records := []; stack := dump |} in
  exists lines : list string,
    serve (RecoverAndHandle fallback None reached_panic) GET_root NewRecorder world
    = serve fallback GET_root NewRecorder
        (log {| to := slog_Default; level := LevelError;
                msg := "PANIC caught by middleware.PanicBroker";
                attrs := [ ("error", StringValue "reached panic");
                           ("stack", AnyValue lines) ] |} world)
    /\ unlines lines = dump
    /\ Forall (fun l => ~ In LF (list_ascii_of_string l)) lines.
Proof.
  intros RW dump world.
  exact (RecoverAndHandle_keeps_the_stack fallback reached_panic None
           ResponseRecorder RW GET_root NewRecorder world
           (any_string "reached panic") NewRecorder world eq_refl).
Defined.
